(** * Hotel room reservation: the allocator of [src/app/page.tsx]

    A shallow embedding of the booking logic of the page component
    (inventory construction, travel-time metric, [findOptimalRooms],
    [bookRooms], [generateRandomOccupancy], [resetBookings]) and the
    theorems that settle the specification's claims about it.

    Conventions.
    - JavaScript numbers that the code only ever uses as integers (room
      numbers, floors, positions, the requested count) are [Z].
    - [Number.POSITIVE_INFINITY], the initial value of [minTravelTime], is
      the extra constructor of [JSNum].
    - [Array.prototype.sort] is stable; it is modelled by a stable
      insertion sort driven by the source's comparator.
    - A call that never returns (unbounded recursion) is [None]. *)

From Stdlib Require Import ZArith List Bool Lia Permutation Sorted String
  DecimalString PeanoNat.
Import ListNotations.

Local Open Scope Z_scope.

(** ** Data model *)

Module Hotel.

(** [enum RoomStatus]. *)
Inductive RoomStatus : Type :=
| AVAILABLE
| OCCUPIED
| SELECTED.

Definition RoomStatus_eqb (a b : RoomStatus) : bool :=
  match a, b with
  | AVAILABLE, AVAILABLE | OCCUPIED, OCCUPIED | SELECTED, SELECTED => true
  | _, _ => false
  end.

(** [interface Room]. *)
Record Room : Type := mkRoom {
  number : Z;
  floor : Z;
  position : Z;
  status : RoomStatus
}.

(** A JavaScript number as the allocator handles it: an integer or
    [Number.POSITIVE_INFINITY]. *)
Inductive JSNum : Type :=
| Finite (z : Z)
| Infinity.

(** [interface BookingResult]. *)
Record BookingResult : Type := mkResult {
  rooms : list Room;
  totalTravelTime : JSNum;
  success : bool;
  message : string
}.

(** Hotel structure constants. *)
Definition FLOORS : Z := 10.
Definition ROOMS_PER_FLOOR : list Z := [10; 10; 10; 10; 10; 10; 10; 10; 10; 7].
Definition MAX_ROOMS_PER_BOOKING : Z := 5.

(** The text a template literal produces for an integer (decimal digits,
    with a leading minus sign; JavaScript switches to exponent notation
    only from 10^21 on, far from any value printed here). *)
Definition show (n : Z) : string := NilZero.string_of_int (Z.to_int n).

(** ** Array primitives *)

(** [a.length], as a number. *)
Definition len {A : Type} (l : list A) : Z := Z.of_nat (List.length l).

(** [a.slice(0, n)]: a negative [n] counts from the end of the array. *)
Definition slice0 {A : Type} (l : list A) (n : Z) : list A :=
  if n <? 0 then firstn (Z.to_nat (Z.max 0 (len l + n))) l
  else firstn (Z.to_nat n) l.

(** [a.sort(cmp)]: the element [x] goes before the first [y] with
    [cmp x y <= 0], so that equal elements keep their order. *)
Section Sort.
Context {A : Type}.
Variable cmp : A -> A -> Z.

Fixpoint insert (x : A) (l : list A) : list A :=
  match l with
  | [] => [x]
  | y :: l' => if cmp x y <=? 0 then x :: y :: l' else y :: insert x l'
  end.

Definition sort (l : list A) : list A := fold_right insert [] l.

(** The order the comparator induces. *)
Definition cmpLe (a b : A) : Prop := cmp a b <= 0.
End Sort.

(** The two comparators of the source. *)
Definition byPosition (a b : Room) : Z := position a - position b.

Definition byFloorThenPosition (a b : Room) : Z :=
  if negb (floor a =? floor b) then floor a - floor b
  else position a - position b.

(** ** Inventory construction *)

(** The inner loop of [initializeRooms]: positions [position] ..
    [roomsOnFloor] of one floor, [n] iterations left. *)
Fixpoint pushFloor (fl : Z) (position0 : Z) (n : nat) : list Room :=
  match n with
  | O => []
  | S n' =>
      let roomNumber := if fl =? 10 then 1000 + position0 else fl * 100 + position0 in
      mkRoom roomNumber fl position0 AVAILABLE :: pushFloor fl (position0 + 1) n'
  end.

(** The outer loop: floors [fl] .. [FLOORS], [n] iterations left. *)
Fixpoint pushFloors (fl : Z) (n : nat) : list Room :=
  match n with
  | O => []
  | S n' =>
      let roomsOnFloor := nth (Z.to_nat (fl - 1)) ROOMS_PER_FLOOR 0 in
      pushFloor fl 1 (Z.to_nat roomsOnFloor) ++ pushFloors (fl + 1) n'
  end.

Definition initializeRooms : list Room := pushFloors 1 (Z.to_nat FLOORS).

(** ** Travel time *)

Definition calculateTravelTime (room1 room2 : Room) : Z :=
  let verticalTime := Z.abs (floor room1 - floor room2) * 2 in
  let horizontalTime :=
    if floor room1 =? floor room2
    then Z.abs (position room1 - position room2) else 0 in
  verticalTime + horizontalTime.

(** The loop over consecutive pairs of the sorted copy. *)
Fixpoint pathTime (sortedRooms : list Room) : Z :=
  match sortedRooms with
  | a :: ((b :: _) as tl) => calculateTravelTime a b + pathTime tl
  | _ => 0
  end.

Definition calculateTotalTravelTime (roomSet : list Room) : Z :=
  if len roomSet <=? 1 then 0
  else pathTime (sort byFloorThenPosition roomSet).

(** ** The allocator *)

Definition isAvailable (room : Room) : bool :=
  RoomStatus_eqb (status room) AVAILABLE.

Definition getAvailableRoomsOnFloor (inv : list Room) (fl : Z) : list Room :=
  sort byPosition
    (filter (fun room => (floor room =? fl) && isAvailable room) inv).

(** Strategy 1, the loop over the floors still to scan: the first floor
    with enough available rooms returns from [findOptimalRooms]. *)
Fixpoint sameFloorSearch (inv : list Room) (numRooms : Z) (floors : list Z)
  : option BookingResult :=
  match floors with
  | [] => None
  | fl :: rest =>
      let floorRooms := getAvailableRoomsOnFloor inv fl in
      if len floorRooms >=? numRooms then
        let selectedRooms := slice0 floorRooms numRooms in
        Some (mkResult selectedRooms
                (Finite (calculateTotalTravelTime selectedRooms))
                true
                ("Booked " ++ show numRooms ++ " rooms on Floor " ++ show fl)%string)
      else sameFloorSearch inv numRooms rest
  end.

(** The floors [1 .. FLOORS] in the order the loop visits them. *)
Definition floorRange : list Z :=
  map Z.of_nat (seq 1 (Z.to_nat FLOORS)).

(** The monad of calls that may not return. *)
Definition bind {A B : Type} (m : option A) (k : A -> option B) : option B :=
  match m with
  | Some a => k a
  | None => None
  end.

Notation "x <- m ;; k" := (bind m (fun x => k))
  (at level 61, m at next level, right associativity).

(** [generateCombinations], by recursion on the depth of the call stack.
    The loop runs [i] over [0 .. rooms.length - size]; for [size >= 2]
    the index is always inside the array. *)
Fixpoint generateCombinations_depth (depth : nat) (rs : list Room) (size : Z)
  : option (list (list Room)) :=
  match depth with
  | O => None
  | S depth' =>
      if size =? 1 then Some (map (fun room => [room]) rs)
      else
        fold_left
          (fun (acc : option (list (list Room))) (i : nat) =>
             combinations <- acc ;;
             smaller <- generateCombinations_depth depth' (skipn (S i) rs) (size - 1) ;;
             room_i <- nth_error rs i ;;
             Some (combinations ++ map (fun combo => room_i :: combo) smaller))
          (seq 0 (Z.to_nat (len rs - size + 1)))
          (Some [])
  end.

(** A call with [size >= 1] nests exactly [size] deep; a call with
    [size <= 0] recurses without end (see [generateCombinations_diverges]). *)
Definition generateCombinations (rs : list Room) (size : Z)
  : option (list (list Room)) :=
  generateCombinations_depth (Z.to_nat size) rs size.

(** [travelTime < minTravelTime]. *)
Definition ltNum (t : Z) (m : JSNum) : bool :=
  match m with
  | Finite z => t <? z
  | Infinity => true
  end.

(** One step of the [forEach] that keeps the best combination so far. *)
Definition considerCombination (st : list Room * JSNum) (combination : list Room)
  : list Room * JSNum :=
  let travelTime := calculateTotalTravelTime combination in
  if ltNum travelTime (snd st) then (combination, Finite travelTime) else st.

(** The tail of [findOptimalRooms] after strategy 2. *)
Definition finish (numRooms : Z) (st : list Room * JSNum) : BookingResult :=
  let (bestCombination, minTravelTime) := st in
  if len bestCombination =? numRooms then
    mkResult bestCombination minTravelTime true
      ("Booked " ++ show numRooms ++ " rooms across multiple floors")%string
  else
    mkResult [] (Finite 0) false "Unable to find optimal room combination".

Definition findOptimalRooms (inv : list Room) (numRooms : Z)
  : option BookingResult :=
  if numRooms >? MAX_ROOMS_PER_BOOKING then
    Some (mkResult [] (Finite 0) false
            ("Maximum " ++ show MAX_ROOMS_PER_BOOKING
               ++ " rooms per booking allowed")%string)
  else
    let availableRooms := filter isAvailable inv in
    if len availableRooms <? numRooms then
      Some (mkResult [] (Finite 0) false
              ("Only " ++ show (len availableRooms) ++ " rooms available")%string)
    else
      match sameFloorSearch inv numRooms floorRange with
      | Some result => Some result
      | None =>
          if (numRooms <=? 3) || (len availableRooms <=? 20) then
            combinations <- generateCombinations availableRooms numRooms ;;
            Some (finish numRooms
                    (fold_left considerCombination combinations ([], Infinity)))
          else
            let bestCombination :=
              slice0 (sort byFloorThenPosition availableRooms) numRooms in
            Some (finish numRooms
                    (bestCombination,
                     Finite (calculateTotalTravelTime bestCombination)))
      end.

(** ** The page state and its mutators *)

Record PageState : Type := mkState {
  st_rooms : list Room;
  requestedRooms : Z;
  lastBooking : option BookingResult
}.

Definition withStatus (room : Room) (s : RoomStatus) : Room :=
  mkRoom (number room) (floor room) (position room) s.

(** The updater passed to [setRooms] in [bookRooms]. *)
Definition markSelected (result : BookingResult) (prevRooms : list Room)
  : list Room :=
  map (fun room =>
         let isSelected :=
           existsb (fun selectedRoom => number selectedRoom =? number room)
             (rooms result) in
         if isSelected then withStatus room SELECTED else room)
      prevRooms.

(** What [bookRooms] does to the inventory once it has a result. *)
Definition commitBooking (inv : list Room) (result : BookingResult)
  : list Room :=
  if success result then markSelected result inv else inv.

Definition bookRooms (s : PageState) : option PageState :=
  result <- findOptimalRooms (st_rooms s) (requestedRooms s) ;;
  Some (mkState (commitBooking (st_rooms s) result) (requestedRooms s)
          (Some result)).

(** [generateRandomOccupancy].  [draws i] is the outcome of the test
    [Math.random() < 0.3] made for the room at index [i]. *)
Fixpoint randomize (draws : nat -> bool) (i : nat) (prevRooms : list Room)
  : list Room :=
  match prevRooms with
  | [] => []
  | room :: rest =>
      withStatus room (if draws i then OCCUPIED else AVAILABLE)
        :: randomize draws (S i) rest
  end.

Definition generateRandomOccupancy (draws : nat -> bool) (s : PageState)
  : PageState :=
  mkState (randomize draws 0 (st_rooms s)) (requestedRooms s) None.

Definition resetBookings (s : PageState) : PageState :=
  mkState initializeRooms (requestedRooms s) None.

(** The [onChange] handler of the number input:
    [Number.parseInt(e.target.value) || 1].  [parsed] is what [parseInt]
    returns, [None] for [NaN]; [NaN] and 0 are falsy and become 1, every
    other integer, negative ones included, is kept. *)
Definition parsedOrOne (parsed : option Z) : Z :=
  match parsed with
  | Some n => if n =? 0 then 1 else n
  | None => 1
  end.

Definition setRequestedRooms (parsed : option Z) (s : PageState) : PageState :=
  mkState (st_rooms s) (parsedOrOne parsed) (lastBooking s).

(** The state [useState] starts from. *)
Definition initialState : PageState := mkState initializeRooms 1 None.

(** ** Vocabulary of the specification *)

(** Ascending position, and ascending (floor, position). *)
Definition positionLe (a b : Room) : Prop := position a <= position b.

Definition floorPositionLe (a b : Room) : Prop :=
  floor a < floor b \/ (floor a = floor b /\ position a <= position b).

(** The place of a room in the building, which is all the travel time
    looks at, and the order of places. *)
Definition place (room : Room) : Z * Z := (floor room, position room).

Definition placeLe (p q : Z * Z) : Prop :=
  fst p < fst q \/ (fst p = fst q /\ snd p <= snd q).

(** The rooms available in a snapshot, in inventory order. *)
Definition availableRooms (inv : list Room) : list Room :=
  filter isAvailable inv.

(** The part of a room that never changes. *)
Definition topology (room : Room) : Z * Z * Z :=
  (number room, floor room, position room).

(** An inventory is the 97-room building with some status on every room. *)
Definition is_inventory (inv : list Room) : Prop :=
  map topology inv = map topology initializeRooms.

(** [c] picks some of the elements of [l], keeping their order. *)
Inductive subseq {A : Type} : list A -> list A -> Prop :=
| subseq_nil : subseq [] []
| subseq_skip : forall x c l, subseq c l -> subseq c (x :: l)
| subseq_take : forall x c l, subseq c l -> subseq (x :: c) (x :: l).

(** The combinations of size [k] drawn from [l], in lexicographic order of
    the chosen indices: the enumeration the specification asks for. *)
Fixpoint spec_combinations {A : Type} (l : list A) (k : nat) : list (list A) :=
  match k, l with
  | O, _ => [[]]
  | S _, [] => []
  | S k', x :: l' =>
      map (cons x) (spec_combinations l' k') ++ spec_combinations l' k
  end.

(** The result strategy 1 returns when it stops at floor [fl]. *)
Definition sameFloorResult (inv : list Room) (numRooms fl : Z) : BookingResult :=
  let selectedRooms := slice0 (getAvailableRoomsOnFloor inv fl) numRooms in
  mkResult selectedRooms (Finite (calculateTotalTravelTime selectedRooms)) true
    ("Booked " ++ show numRooms ++ " rooms on Floor " ++ show fl)%string.

(** The building with the status [pick] chooses for each room number:
    the inventories the examples run on. *)
Definition inventoryWith (pick : Z -> RoomStatus) : list Room :=
  map (fun room => withStatus room (pick (number room))) initializeRooms.

(** What every result of a request for [numRooms] rooms satisfies. *)
Definition wellFormedResult (numRooms : Z) (result : BookingResult)
  : Prop :=
  (success result = false ->
   rooms result = [] /\ totalTravelTime result = Finite 0) /\
  (success result = true ->
   totalTravelTime result = Finite (calculateTotalTravelTime (rooms result)) /\
   (0 <= numRooms -> len (rooms result) = numRooms) /\
   (numRooms = 1 -> totalTravelTime result = Finite 0)).

(** The states the page can reach through its input and its three
    buttons. *)
Inductive reachable : PageState -> Prop :=
| reach_init : reachable initialState
| reach_count : forall s parsed,
    reachable s -> reachable (setRequestedRooms parsed s)
| reach_book : forall s s',
    reachable s -> bookRooms s = Some s' -> reachable s'
| reach_random : forall s draws,
    reachable s -> reachable (generateRandomOccupancy draws s)
| reach_reset : forall s,
    reachable s -> reachable (resetBookings s).

(** ** The rest of the page: counters, colours and layout *)

(** [getRoomStatusColor]; the [default] branch of the [switch] has no
    status left to catch. *)
Definition getRoomStatusColor (st : RoomStatus) : string :=
  match st with
  | AVAILABLE => "bg-green-100 border-green-300 text-green-800"
  | OCCUPIED => "bg-red-100 border-red-300 text-red-800"
  | SELECTED => "bg-blue-100 border-blue-300 text-blue-800"
  end.

(** The three counters of the header. *)
Definition availableRoomCount (rs : list Room) : Z :=
  len (filter (fun room => RoomStatus_eqb (status room) AVAILABLE) rs).

Definition occupiedRoomCount (rs : list Room) : Z :=
  len (filter (fun room => RoomStatus_eqb (status room) OCCUPIED) rs).

Definition selectedRoomCount (rs : list Room) : Z :=
  len (filter (fun room => RoomStatus_eqb (status room) SELECTED) rs).

(** [Array.from({ length: FLOORS }, (_, i) => FLOORS - i)]: the floors in
    the order the layout draws them, top floor first. *)
Definition displayFloors : list Z :=
  map (fun i => FLOORS - Z.of_nat i) (seq 0 (Z.to_nat FLOORS)).

(** The rooms one row of the layout maps over:
    [rooms.filter(room.floor === floor).sort(by position)]. *)
Definition floorRow (rs : list Room) (fl : Z) : list Room :=
  sort byPosition (filter (fun room => floor room =? fl) rs).

(** What a badge shows: the room number, in the colour of the status. *)
Definition badge (room : Room) : Z * string :=
  (number room, getRoomStatusColor (status room)).

(** The data of the layout card: one row per floor, labelled with the
    floor, holding the badges of its rooms. *)
Definition hotelLayout (rs : list Room) : list (Z * list (Z * string)) :=
  map (fun fl => (fl, map badge (floorRow rs fl))) displayFloors.

(** The condition under which the alert prints the travel time line:
    [lastBooking.success && lastBooking.totalTravelTime > 0]. *)
Definition showsTravelTime (result : BookingResult) : bool :=
  success result &&
  match totalTravelTime result with
  | Finite t => 0 <? t
  | Infinity => true
  end.

(** ** More vocabulary *)

(** The number [initializeRooms] gives the room at a place. *)
Definition roomNumberAt (fl pos : Z) : Z :=
  if fl =? 10 then 1000 + pos else fl * 100 + pos.

(** A room that sits where the building has one and carries the number
    of that place. *)
Definition wellPlaced (room : Room) : Prop :=
  1 <= floor room <= FLOORS /\
  1 <= position room <= nth (Z.to_nat (floor room - 1)) ROOMS_PER_FLOOR 0 /\
  number room = roomNumberAt (floor room) (position room).

Definition wellPlacedb (t : Z * Z * Z) : bool :=
  let '(n, fl, pos) := t in
  (1 <=? fl) && (fl <=? FLOORS) && (1 <=? pos) &&
  (pos <=? nth (Z.to_nat (fl - 1)) ROOMS_PER_FLOOR 0) &&
  (n =? roomNumberAt fl pos).

(** Binomial coefficients, by Pascal's rule. *)
Fixpoint choose (n k : nat) : Z :=
  match k, n with
  | O, _ => 1
  | S _, O => 0
  | S k', S n' => choose n' k' + choose n' k
  end.

(** Whether a room number occurs in a result. *)
Definition isSelectedIn (result : BookingResult) (room : Room) : bool :=
  existsb (fun selectedRoom => number selectedRoom =? number room)
    (rooms result).

End Hotel.

Import Hotel.

(** ** Arrays: lengths, slices and the stable sort *)

Section ArrayFacts.
Context {A : Type}.

Lemma len_nonneg (l : list A) : 0 <= len l.
Proof. unfold len; lia. Qed.

Lemma len_nil : len (@nil A) = 0.
Proof. reflexivity. Qed.

Lemma len_cons (x : A) (l : list A) : len (x :: l) = len l + 1.
Proof. unfold len; simpl List.length; lia. Qed.

Lemma slice0_nonneg (l : list A) (n : Z) :
  0 <= n -> slice0 l n = firstn (Z.to_nat n) l.
Proof.
  intros Hn. unfold slice0.
  destruct (Z.ltb_spec n 0) as [Hlt | _]; [lia | reflexivity].
Qed.

Lemma slice0_len (l : list A) (n : Z) :
  0 <= n <= len l -> len (slice0 l n) = n.
Proof.
  intros [H0 Hn]. rewrite slice0_nonneg by assumption.
  unfold len in *. rewrite length_firstn. lia.
Qed.

Lemma slice0_incl (l : list A) (n : Z) (x : A) :
  In x (slice0 l n) -> In x l.
Proof.
  unfold slice0. destruct (n <? 0); intros H;
    match type of H with
    | In _ (firstn ?k _) =>
        rewrite <- (firstn_skipn k l); apply in_or_app; left; exact H
    end.
Qed.

Variable cmp : A -> A -> Z.

Lemma insert_perm (x : A) (l : list A) :
  Permutation (insert cmp x l) (x :: l).
Proof.
  induction l as [| y l IH]; simpl.
  - apply Permutation_refl.
  - destruct (cmp x y <=? 0).
    + apply Permutation_refl.
    + eapply perm_trans; [apply perm_skip, IH | apply perm_swap].
Qed.

Lemma sort_perm (l : list A) : Permutation (sort cmp l) l.
Proof.
  induction l as [| x l IH]; simpl.
  - apply perm_nil.
  - eapply perm_trans; [apply insert_perm | apply perm_skip, IH].
Qed.

Lemma sort_length (l : list A) : List.length (sort cmp l) = List.length l.
Proof. apply Permutation_length, sort_perm. Qed.

Lemma sort_len (l : list A) : len (sort cmp l) = len l.
Proof. unfold len. now rewrite sort_length. Qed.

Lemma sort_In (l : list A) (x : A) : In x (sort cmp l) <-> In x l.
Proof.
  split; apply Permutation_in;
    [apply sort_perm | apply Permutation_sym, sort_perm].
Qed.

(** What the sort guarantees when the comparator is a total preorder. *)
Hypothesis cmp_total : forall a b, 0 < cmp a b -> cmp b a <= 0.
Hypothesis cmp_trans : forall a b c, cmp a b <= 0 -> cmp b c <= 0 -> cmp a c <= 0.

Lemma insert_sorted (x : A) (l : list A) :
  StronglySorted (cmpLe cmp) l -> StronglySorted (cmpLe cmp) (insert cmp x l).
Proof.
  induction 1 as [| y l Hs IH Hall]; simpl.
  - constructor; constructor.
  - destruct (Z.leb_spec (cmp x y) 0) as [Hle | Hgt].
    + constructor; [constructor; assumption |].
      constructor; [exact Hle |].
      eapply Forall_impl; [| exact Hall].
      intros z Hz. unfold cmpLe in *. eapply cmp_trans; eassumption.
    + constructor; [exact IH |].
      eapply Permutation_Forall; [apply Permutation_sym, insert_perm |].
      constructor; [apply cmp_total; exact Hgt | exact Hall].
Qed.

Lemma sort_sorted (l : list A) : StronglySorted (cmpLe cmp) (sort cmp l).
Proof.
  induction l as [| x l IH]; simpl.
  - constructor.
  - apply insert_sorted, IH.
Qed.
End ArrayFacts.

Lemma byPosition_le (a b : Room) : cmpLe byPosition a b <-> positionLe a b.
Proof. unfold cmpLe, byPosition, positionLe; lia. Qed.

Lemma byFloorThenPosition_le (a b : Room) :
  cmpLe byFloorThenPosition a b <-> floorPositionLe a b.
Proof.
  unfold cmpLe, byFloorThenPosition, floorPositionLe.
  destruct (Z.eqb_spec (floor a) (floor b)); simpl; lia.
Qed.

Lemma StronglySorted_iff {A : Type} (R S : A -> A -> Prop) (l : list A) :
  (forall a b, R a b <-> S a b) -> StronglySorted R l -> StronglySorted S l.
Proof.
  intros HRS. induction 1 as [| x l Hs IH Hall]; constructor.
  - exact IH.
  - eapply Forall_impl; [| exact Hall]. intros b Hb. now apply HRS.
Qed.

Lemma sort_byPosition_sorted (l : list Room) :
  StronglySorted positionLe (sort byPosition l).
Proof.
  apply (StronglySorted_iff (cmpLe byPosition)); [apply byPosition_le |].
  apply sort_sorted; unfold byPosition; intros; lia.
Qed.

Lemma sort_byFloorThenPosition_sorted (l : list Room) :
  StronglySorted floorPositionLe (sort byFloorThenPosition l).
Proof.
  apply (StronglySorted_iff (cmpLe byFloorThenPosition));
    [apply byFloorThenPosition_le |].
  apply sort_sorted; unfold byFloorThenPosition; intros a b;
    [| intros c];
    destruct (Z.eqb_spec (floor a) (floor b));
    try destruct (Z.eqb_spec (floor b) (floor a));
    try destruct (Z.eqb_spec (floor b) (floor c));
    try destruct (Z.eqb_spec (floor a) (floor c)); simpl; lia.
Qed.

(** ** The same-floor search *)

Lemma floorRange_In (fl : Z) : In fl floorRange <-> 1 <= fl <= FLOORS.
Proof.
  unfold floorRange, FLOORS. rewrite in_map_iff. split.
  - intros (k & <- & Hk). apply in_seq in Hk. simpl in Hk. lia.
  - intros H. exists (Z.to_nat fl). split; [lia |].
    apply in_seq. simpl. lia.
Qed.

Lemma floorRange_split (fl : Z) :
  1 <= fl <= FLOORS ->
  exists before after,
    floorRange = before ++ fl :: after /\
    forall fl', In fl' before -> 1 <= fl' < fl.
Proof.
  intros H. unfold FLOORS in H.
  exists (map Z.of_nat (seq 1 (Z.to_nat fl - 1))),
         (map Z.of_nat (seq (Z.to_nat fl + 1) (10 - Z.to_nat fl))).
  split.
  - assert (Hfl : fl = 1 \/ fl = 2 \/ fl = 3 \/ fl = 4 \/ fl = 5 \/
                  fl = 6 \/ fl = 7 \/ fl = 8 \/ fl = 9 \/ fl = 10) by lia.
    repeat (destruct Hfl as [-> | Hfl]; [reflexivity |]). now subst.
  - intros fl' Hin. apply in_map_iff in Hin as (k & <- & Hk).
    apply in_seq in Hk. lia.
Qed.

Lemma sameFloorSearch_none (inv : list Room) (numRooms : Z) (floors : list Z) :
  sameFloorSearch inv numRooms floors = None <->
  forall fl, In fl floors -> len (getAvailableRoomsOnFloor inv fl) < numRooms.
Proof.
  induction floors as [| fl rest IH]; simpl.
  - split; [intros _ fl [] | reflexivity].
  - destruct (Z.geb_spec (len (getAvailableRoomsOnFloor inv fl)) numRooms)
      as [Hge | Hlt].
    + split; [discriminate |]. intros H. specialize (H fl (or_introl eq_refl)). lia.
    + rewrite IH. split.
      * intros H fl' [<- | Hin]; [exact Hlt | now apply H].
      * intros H fl' Hin. apply H. now right.
Qed.

Lemma sameFloorSearch_stops (inv : list Room) (numRooms fl : Z)
      (before after : list Z) :
  (forall fl', In fl' before ->
               len (getAvailableRoomsOnFloor inv fl') < numRooms) ->
  numRooms <= len (getAvailableRoomsOnFloor inv fl) ->
  sameFloorSearch inv numRooms (before ++ fl :: after)
  = Some (sameFloorResult inv numRooms fl).
Proof.
  intros Hbefore Hfl. induction before as [| b before IH]; simpl.
  - destruct (Z.geb_spec (len (getAvailableRoomsOnFloor inv fl)) numRooms);
      [reflexivity | lia].
  - destruct (Z.geb_spec (len (getAvailableRoomsOnFloor inv b)) numRooms)
      as [Hge | Hlt].
    + specialize (Hbefore b (or_introl eq_refl)). lia.
    + apply IH. intros fl' Hin. apply Hbefore. now right.
Qed.

(** Whatever strategy 1 returns is the result of some scanned floor that
    has enough rooms. *)
Lemma sameFloorSearch_some (inv : list Room) (numRooms : Z) (floors : list Z)
      (result : BookingResult) :
  sameFloorSearch inv numRooms floors = Some result ->
  exists fl, In fl floors /\
             numRooms <= len (getAvailableRoomsOnFloor inv fl) /\
             result = sameFloorResult inv numRooms fl.
Proof.
  induction floors as [| fl rest IH]; simpl; [discriminate |].
  destruct (Z.geb_spec (len (getAvailableRoomsOnFloor inv fl)) numRooms)
    as [Hge | Hlt].
  - intros [= <-]. exists fl. repeat split; [now left | lia].
  - intros H. destruct (IH H) as (fl' & Hin & Hle & ->).
    exists fl'. repeat split; [now right | exact Hle].
Qed.

Lemma getAvailableRoomsOnFloor_perm (inv : list Room) (fl : Z) :
  Permutation (getAvailableRoomsOnFloor inv fl)
    (filter (fun room => (floor room =? fl) && isAvailable room) inv).
Proof. apply sort_perm. Qed.

Lemma getAvailableRoomsOnFloor_In (inv : list Room) (fl : Z) (room : Room) :
  In room (getAvailableRoomsOnFloor inv fl) <->
  In room inv /\ floor room = fl /\ status room = AVAILABLE.
Proof.
  unfold getAvailableRoomsOnFloor. rewrite sort_In, filter_In.
  rewrite andb_true_iff, Z.eqb_eq. unfold isAvailable.
  destruct (status room); simpl; intuition congruence.
Qed.

Lemma isAvailable_true (room : Room) :
  isAvailable room = true <-> status room = AVAILABLE.
Proof. unfold isAvailable. destruct (status room); simpl; split; congruence. Qed.

(** ** Fast failures and the degenerate request *)

(** C4. A request above [MAX_ROOMS_PER_BOOKING] fails with the message
    that reports the cap, an empty room list and travel time 0; the result
    is the same for every inventory, so the statuses are not consulted. *)
Theorem findOptimalRooms_exceeds_cap (inv : list Room) (numRooms : Z) :
  MAX_ROOMS_PER_BOOKING < numRooms ->
  findOptimalRooms inv numRooms
  = Some (mkResult [] (Finite 0) false "Maximum 5 rooms per booking allowed").
Proof.
  intros Hcap. unfold findOptimalRooms.
  destruct (Z.gtb_spec numRooms MAX_ROOMS_PER_BOOKING) as [_ | Hle];
    [reflexivity | lia].
Qed.

Lemma findOptimalRooms_exceeds_cap_witness :
  MAX_ROOMS_PER_BOOKING < 6 /\
  findOptimalRooms initializeRooms 6
  = Some (mkResult [] (Finite 0) false "Maximum 5 rooms per booking allowed").
Proof.
  split; [reflexivity |].
  apply (findOptimalRooms_exceeds_cap initializeRooms 6). reflexivity.
Defined.

(** C5. Within the cap, a request for more rooms than are available fails
    with an empty room list, travel time 0 and a message that reports how
    many rooms are available. *)
Theorem findOptimalRooms_insufficient (inv : list Room) (numRooms : Z) :
  numRooms <= MAX_ROOMS_PER_BOOKING ->
  len (availableRooms inv) < numRooms ->
  findOptimalRooms inv numRooms
  = Some (mkResult [] (Finite 0) false
            ("Only " ++ show (len (availableRooms inv)) ++ " rooms available")).
Proof.
  intros Hcap Hfew. unfold findOptimalRooms, availableRooms in *.
  destruct (Z.gtb_spec numRooms MAX_ROOMS_PER_BOOKING) as [Hgt | _]; [lia |].
  destruct (Z.ltb_spec (len (filter isAvailable inv)) numRooms) as [_ | Hge];
    [reflexivity | lia].
Qed.

(** C10. A request for 0 rooms succeeds on every inventory: floor 1 has at
    least 0 available rooms, so the same-floor search returns an empty
    booking on floor 1 with travel time 0. *)
Theorem findOptimalRooms_zero (inv : list Room) :
  findOptimalRooms inv 0
  = Some (mkResult [] (Finite 0) true "Booked 0 rooms on Floor 1").
Proof.
  unfold findOptimalRooms.
  destruct (Z.gtb_spec 0 MAX_ROOMS_PER_BOOKING) as [Hgt | _];
    [unfold MAX_ROOMS_PER_BOOKING in Hgt; lia |].
  destruct (Z.ltb_spec (len (filter isAvailable inv)) 0) as [Hlt | _];
    [pose proof (len_nonneg (filter isAvailable inv)); lia |].
  change floorRange with (@nil Z ++ 1 :: map Z.of_nat (seq 2 9)).
  rewrite sameFloorSearch_stops.
  - reflexivity.
  - intros fl' [].
  - apply len_nonneg.
Qed.

Lemma findOptimalRooms_insufficient_witness :
  let inv := inventoryWith (fun n => if n =? 507 then AVAILABLE else OCCUPIED) in
  findOptimalRooms inv 2
  = Some (mkResult [] (Finite 0) false "Only 1 rooms available").
Proof.
  apply (findOptimalRooms_insufficient
           (inventoryWith (fun n => if n =? 507 then AVAILABLE else OCCUPIED)) 2);
    vm_compute; congruence.
Defined.

(** ** Committing, randomizing and resetting *)

Lemma markSelected_length (result : BookingResult) (inv : list Room) :
  List.length (markSelected result inv) = List.length inv.
Proof. apply length_map. Qed.

Lemma existsb_number (sel : list Room) (n : Z) :
  existsb (fun selectedRoom => number selectedRoom =? n) sel = true <->
  In n (map number sel).
Proof.
  rewrite existsb_exists, in_map_iff.
  split; intros (r & H1 & H2); exists r.
  - apply Z.eqb_eq in H2. now split.
  - split; [assumption | now apply Z.eqb_eq].
Qed.

(** C7. Committing a failed result returns the inventory unchanged.
    Committing a successful one keeps the rooms in place and, room by
    room, sets the status to Selected when the room's number occurs in the
    result (number, floor and position kept) and returns the very same
    room otherwise. *)
Theorem commitBooking_frame (inv : list Room) (result : BookingResult) :
  (success result = false -> commitBooking inv result = inv) /\
  (success result = true ->
   List.length (commitBooking inv result) = List.length inv /\
   forall i room,
     nth_error inv i = Some room ->
     (In (number room) (map number (rooms result)) ->
      nth_error (commitBooking inv result) i
      = Some (mkRoom (number room) (floor room) (position room) SELECTED)) /\
     (~ In (number room) (map number (rooms result)) ->
      nth_error (commitBooking inv result) i = Some room)).
Proof.
  unfold commitBooking. split; intros Hs; rewrite Hs; [reflexivity |].
  split; [apply markSelected_length |].
  intros i room Hi. unfold markSelected.
  rewrite nth_error_map, Hi. simpl.
  pose proof (existsb_number (rooms result) (number room)) as Hex.
  destruct (existsb _ (rooms result)).
  - split; [reflexivity |]. intros Hnot. exfalso. apply Hnot, Hex. reflexivity.
  - split; [| reflexivity]. intros Hin. apply Hex in Hin. discriminate.
Qed.

Lemma randomize_topology (draws : nat -> bool) (i : nat) (inv : list Room) :
  map topology (randomize draws i inv) = map topology inv.
Proof.
  revert i. induction inv as [| room rest IH]; intros i; simpl.
  - reflexivity.
  - now rewrite IH.
Qed.

Lemma randomize_status (draws : nat -> bool) (i : nat) (inv : list Room) :
  Forall (fun room => status room = AVAILABLE \/ status room = OCCUPIED)
    (randomize draws i inv).
Proof.
  revert i. induction inv as [| room rest IH]; intros i; simpl.
  - constructor.
  - constructor; [| apply IH]. simpl. destruct (draws i); auto.
Qed.

Lemma randomize_nth (draws : nat -> bool) (inv : list Room) (k i : nat)
      (room : Room) :
  nth_error inv i = Some room ->
  nth_error (randomize draws k inv) i
  = Some (withStatus room (if draws (k + i)%nat then OCCUPIED else AVAILABLE)).
Proof.
  revert k i. induction inv as [| r rest IH]; intros k [| i]; simpl;
    try discriminate.
  - intros [= ->]. now rewrite Nat.add_0_r.
  - intros H. rewrite (IH (S k) i H). now rewrite Nat.add_succ_r.
Qed.

Lemma initializeRooms_available :
  Forall (fun room => status room = AVAILABLE) initializeRooms.
Proof. vm_compute. repeat constructor. Qed.

(** C8. After [resetBookings] the inventory is the freshly constructed
    one: 97 rooms, all Available.  After [generateRandomOccupancy], for
    every outcome of the draws, the same rooms are there (number, floor and
    position kept), every one Available or Occupied and none Selected,
    whatever the statuses were before. *)
Theorem reset_and_randomize_shape (s : PageState) (draws : nat -> bool) :
  (st_rooms (resetBookings s) = initializeRooms /\
   List.length (st_rooms (resetBookings s)) = 97%nat /\
   Forall (fun room => status room = AVAILABLE) (st_rooms (resetBookings s))) /\
  (map topology (st_rooms (generateRandomOccupancy draws s))
   = map topology (st_rooms s) /\
   Forall (fun room => (status room = AVAILABLE \/ status room = OCCUPIED) /\
                       status room <> SELECTED)
     (st_rooms (generateRandomOccupancy draws s))).
Proof.
  split; [split; [reflexivity | split; [reflexivity |]] | split].
  - exact initializeRooms_available.
  - apply randomize_topology.
  - eapply Forall_impl; [| apply randomize_status].
    intros room [H | H]; rewrite H; split; auto; discriminate.
Qed.

(** ** Combinations: the generator against the enumeration of the
    specification *)

Section Combinations.
Context {A : Type}.

Lemma spec_combinations_0 (l : list A) : spec_combinations l 0 = [[]].
Proof. destruct l; reflexivity. Qed.

Lemma spec_combinations_1 (l : list A) :
  spec_combinations l 1 = map (fun x => [x]) l.
Proof.
  induction l as [| x l IH]; simpl; [reflexivity |].
  now rewrite spec_combinations_0, IH.
Qed.

Lemma spec_combinations_short (l : list A) (k : nat) :
  (List.length l < k)%nat -> spec_combinations l k = [].
Proof.
  revert k. induction l as [| x l IH]; intros [| k] H; simpl in *; try lia.
  - reflexivity.
  - rewrite (IH k), (IH (S k)) by lia. reflexivity.
Qed.

Lemma subseq_nil_l (l : list A) : subseq [] l.
Proof. induction l; constructor; assumption. Qed.

Lemma subseq_length (c l : list A) :
  subseq c l -> (List.length c <= List.length l)%nat.
Proof. induction 1; simpl; lia. Qed.

Lemma subseq_In (c l : list A) (x : A) : subseq c l -> In x c -> In x l.
Proof.
  induction 1 as [| y c l _ IH | y c l _ IH]; simpl; intuition.
Qed.

(** The enumeration lists exactly the order-preserving selections of the
    given size. *)
Lemma spec_combinations_In (l c : list A) (k : nat) :
  In c (spec_combinations l k) <-> subseq c l /\ List.length c = k.
Proof.
  revert c k. induction l as [| x l IH]; intros c [| k]; simpl.
  - split.
    + intros [<- | []]. split; [constructor | reflexivity].
    + intros [_ Hlen]. destruct c; [now left | discriminate].
  - split; [intros [] |]. intros [Hs Hlen]. inversion Hs; subst. discriminate.
  - split.
    + intros [<- | []]. split; [apply subseq_nil_l | reflexivity].
    + intros [_ Hlen]. destruct c; [now left | discriminate].
  - rewrite in_app_iff, in_map_iff. split.
    + intros [(c' & <- & Hin) | Hin].
      * apply IH in Hin as [Hs Hlen]. split; [now constructor | simpl; lia].
      * apply IH in Hin as [Hs Hlen]. split; [now constructor | exact Hlen].
    + intros [Hs Hlen]. inversion Hs as [| y c' l' Hs' | y c' l' Hs']; subst.
      * right. apply IH. now split.
      * left. exists c'. split; [reflexivity |]. apply IH.
        simpl in Hlen. split; [assumption | lia].
Qed.

(** The enumeration written as the loop of the source: the first chosen
    index [i] runs upwards, the rest is chosen after it. *)
Lemma spec_combinations_loop (l : list A) (k : nat) :
  spec_combinations l (S k)
  = flat_map
      (fun i => match nth_error l i with
                | Some x => map (cons x) (spec_combinations (skipn (S i) l) k)
                | None => []
                end)
      (seq 0 (List.length l - k)).
Proof.
  induction l as [| x l IH]; [reflexivity |].
  destruct (Nat.le_gt_cases k (List.length l)) as [Hle | Hgt].
  - replace (List.length (x :: l) - k)%nat with (S (List.length l - k))
      by (cbn [List.length]; lia).
    rewrite <- cons_seq, <- seq_shift. cbn [flat_map nth_error skipn].
    change (spec_combinations (x :: l) (S k))
      with (map (cons x) (spec_combinations l k) ++ spec_combinations l (S k)).
    f_equal. rewrite IH.
    rewrite !flat_map_concat_map, map_map. reflexivity.
  - replace (List.length (x :: l) - k)%nat with 0%nat
      by (cbn [List.length]; lia).
    simpl. rewrite (spec_combinations_short l k) by lia.
    rewrite (spec_combinations_short l (S k)) by lia. reflexivity.
Qed.
End Combinations.

Lemma bind_None_fold {B : Type} (f : option (list (list Room)) -> B ->
                                     option (list (list Room)))
      (idxs : list B) :
  (forall i, f None i = None) -> fold_left f idxs None = None.
Proof.
  intros Hf. induction idxs as [| i idxs IH]; simpl; [reflexivity |].
  now rewrite Hf.
Qed.

(** The loop of [generateCombinations] when every recursive call returns. *)
Lemma generateCombinations_loop (depth : nat) (rs : list Room) (size : Z)
      (smaller : nat -> list (list Room)) (idxs : list nat)
      (acc : list (list Room)) :
  (forall i, In i idxs ->
     generateCombinations_depth depth (skipn (S i) rs) (size - 1)
     = Some (smaller i) /\ (i < List.length rs)%nat) ->
  fold_left
    (fun (acc : option (list (list Room))) (i : nat) =>
       combinations <- acc ;;
       smaller <- generateCombinations_depth depth (skipn (S i) rs) (size - 1) ;;
       room_i <- nth_error rs i ;;
       Some (combinations ++ map (fun combo => room_i :: combo) smaller))
    idxs (Some acc)
  = Some (acc ++ flat_map
                   (fun i => match nth_error rs i with
                             | Some x => map (cons x) (smaller i)
                             | None => []
                             end) idxs).
Proof.
  revert acc. induction idxs as [| i idxs IH]; intros acc H;
    cbn [fold_left flat_map].
  - now rewrite app_nil_r.
  - destruct (H i (or_introl eq_refl)) as [Hrec Hi].
    cbn [bind]. rewrite Hrec. cbn [bind].
    destruct (nth_error rs i) as [x |] eqn:Hx.
    + cbn [bind]. rewrite IH by (intros j Hj; apply H; now right).
      now rewrite <- app_assoc.
    + apply nth_error_None in Hx. lia.
Qed.

(** For a size of at least 1 and a stack deep enough, the generator
    returns the lexicographic enumeration. *)
Lemma generateCombinations_depth_refines (k : nat) :
  forall (depth : nat) (rs : list Room),
    (k < depth)%nat ->
    generateCombinations_depth depth rs (Z.of_nat (S k))
    = Some (spec_combinations rs (S k)).
Proof.
  induction k as [| k IH]; intros [| depth] rs Hd; try lia.
  - simpl. now rewrite spec_combinations_1.
  - cbn [generateCombinations_depth].
    destruct (Z.eqb_spec (Z.of_nat (S (S k))) 1) as [Heq | _]; [lia |].
    replace (Z.to_nat (len rs - Z.of_nat (S (S k)) + 1))
      with (List.length rs - S k)%nat by (unfold len; lia).
    rewrite (generateCombinations_loop depth rs _
               (fun i => spec_combinations (skipn (S i) rs) (S k))).
    + now rewrite spec_combinations_loop.
    + intros i Hi. apply in_seq in Hi. split; [| lia].
      replace (Z.of_nat (S (S k)) - 1) with (Z.of_nat (S k)) by lia.
      apply IH. lia.
Qed.

Lemma generateCombinations_refines (rs : list Room) (size : Z) :
  1 <= size ->
  generateCombinations rs size = Some (spec_combinations rs (Z.to_nat size)).
Proof.
  intros H. unfold generateCombinations.
  destruct (Z.to_nat size) as [| k] eqn:Hk; [lia |].
  replace size with (Z.of_nat (S k)) by lia.
  apply generateCombinations_depth_refines. lia.
Qed.

(** More stack than needed changes nothing. *)
Lemma generateCombinations_depth_enough (rs : list Room) (size : Z) (depth : nat) :
  1 <= size -> (Z.to_nat size <= depth)%nat ->
  generateCombinations_depth depth rs size = generateCombinations rs size.
Proof.
  intros H Hd. rewrite generateCombinations_refines by assumption.
  destruct (Z.to_nat size) as [| k] eqn:Hk; [lia |].
  replace size with (Z.of_nat (S k)) by lia.
  apply generateCombinations_depth_refines. lia.
Qed.

(** With a size of 0 or less the recursion has no base case: no stack
    depth is enough. *)
Lemma generateCombinations_diverges (depth : nat) :
  forall (rs : list Room) (size : Z),
    size <= 0 -> generateCombinations_depth depth rs size = None.
Proof.
  induction depth as [| depth IH]; intros rs size Hs; [reflexivity |].
  cbn [generateCombinations_depth].
  destruct (Z.eqb_spec size 1) as [Heq | _]; [lia |].
  destruct (Z.to_nat (len rs - size + 1)) as [| m] eqn:Hm;
    [pose proof (len_nonneg rs); lia |].
  rewrite <- cons_seq. cbn [fold_left bind].
  rewrite (IH (skipn 1 rs) (size - 1)) by lia.
  apply bind_None_fold. reflexivity.
Qed.

(** ** Travel time *)

Lemma calculateTotalTravelTime_short (roomSet : list Room) :
  len roomSet <= 1 -> calculateTotalTravelTime roomSet = 0.
Proof.
  intros H. unfold calculateTotalTravelTime.
  destruct (Z.leb_spec (len roomSet) 1); [reflexivity | lia].
Qed.

Lemma calculateTravelTime_nonneg (a b : Room) : 0 <= calculateTravelTime a b.
Proof.
  unfold calculateTravelTime. destruct (floor a =? floor b); lia.
Qed.

Lemma calculateTravelTime_sym (a b : Room) :
  calculateTravelTime a b = calculateTravelTime b a.
Proof.
  unfold calculateTravelTime. rewrite (Z.eqb_sym (floor b) (floor a)).
  destruct (floor a =? floor b); lia.
Qed.

Lemma pathTime_nonneg (l : list Room) : 0 <= pathTime l.
Proof.
  induction l as [| a [| b l] IH]; simpl in *; try lia.
  pose proof (calculateTravelTime_nonneg a b). lia.
Qed.

Lemma calculateTotalTravelTime_nonneg (roomSet : list Room) :
  0 <= calculateTotalTravelTime roomSet.
Proof.
  unfold calculateTotalTravelTime. destruct (len roomSet <=? 1); [lia |].
  apply pathTime_nonneg.
Qed.

(** The travel time of a set of rooms does not depend on the order in
    which the rooms are listed: the sorted copy visits the same places. *)
Lemma pathTime_places (l1 l2 : list Room) :
  map place l1 = map place l2 -> pathTime l1 = pathTime l2.
Proof.
  revert l2. induction l1 as [| a l1 IH]; intros [| b l2] H; try discriminate.
  - reflexivity.
  - cbn [map] in H.
    assert (Hab : place a = place b) by congruence.
    assert (Htl : map place l1 = map place l2) by congruence.
    destruct l1 as [| a' l1], l2 as [| b' l2]; try discriminate.
    + reflexivity.
    + change (calculateTravelTime a a' + pathTime (a' :: l1)
              = calculateTravelTime b b' + pathTime (b' :: l2)).
      rewrite (IH (b' :: l2) Htl).
      assert (Hab' : place a' = place b') by (cbn [map] in Htl; congruence).
      unfold place in Hab, Hab'. injection Hab as Hf Hp.
      injection Hab' as Hf' Hp'. unfold calculateTravelTime.
      now rewrite Hf, Hp, Hf', Hp'.
Qed.

Lemma sorted_places (l : list Room) :
  StronglySorted floorPositionLe l -> StronglySorted placeLe (map place l).
Proof.
  induction 1 as [| a l _ IH Hall]; simpl; constructor.
  - exact IH.
  - apply Forall_map. eapply Forall_impl; [| exact Hall].
    intros b Hb. exact Hb.
Qed.

Lemma sorted_places_unique (k1 k2 : list (Z * Z)) :
  StronglySorted placeLe k1 -> StronglySorted placeLe k2 ->
  Permutation k1 k2 -> k1 = k2.
Proof.
  intros H1. revert k2. induction H1 as [| a k1 _ IH Ha]; intros k2 H2 Hp.
  - apply Permutation_nil in Hp. now subst.
  - destruct H2 as [| b k2 H2 Hb].
    + apply Permutation_sym, Permutation_nil in Hp. discriminate.
    + assert (Hab : a = b).
      { rewrite Forall_forall in Ha, Hb.
        assert (Hina : In a (b :: k2))
          by (eapply Permutation_in; [exact Hp | now left]).
        assert (Hinb : In b (a :: k1))
          by (eapply Permutation_in; [apply Permutation_sym, Hp | now left]).
        destruct Hina as [-> | Hina]; [reflexivity |].
        destruct Hinb as [-> | Hinb]; [reflexivity |].
        specialize (Ha b Hinb). specialize (Hb a Hina).
        unfold placeLe in Ha, Hb. destruct a, b. simpl in *. f_equal; lia. }
      subst b. f_equal. apply IH; [exact H2 |].
      eapply Permutation_cons_inv, Hp.
Qed.

Lemma calculateTotalTravelTime_perm (l1 l2 : list Room) :
  Permutation l1 l2 ->
  calculateTotalTravelTime l1 = calculateTotalTravelTime l2.
Proof.
  intros Hp. unfold calculateTotalTravelTime, len.
  rewrite (Permutation_length Hp).
  destruct (Z.of_nat (List.length l2) <=? 1); [reflexivity |].
  apply pathTime_places, sorted_places_unique.
  - apply sorted_places, sort_byFloorThenPosition_sorted.
  - apply sorted_places, sort_byFloorThenPosition_sorted.
  - apply Permutation_map.
    eapply perm_trans; [apply sort_perm |].
    eapply perm_trans; [exact Hp | apply Permutation_sym, sort_perm].
Qed.

(** ** The scan for the best combination *)

(** Running the [forEach] from a state that holds a combination [best] and
    its travel time: [seen] are the combinations before [best], all
    strictly worse; [mid] those after it, none better. *)
Lemma considerCombination_fold (combinations seen mid : list (list Room))
      (best : list Room) :
  (forall c, In c seen ->
     calculateTotalTravelTime best < calculateTotalTravelTime c) ->
  (forall c, In c mid ->
     calculateTotalTravelTime best <= calculateTotalTravelTime c) ->
  exists final earlier later,
    fold_left considerCombination combinations
      (best, Finite (calculateTotalTravelTime best))
    = (final, Finite (calculateTotalTravelTime final)) /\
    seen ++ best :: mid ++ combinations = earlier ++ final :: later /\
    (forall c, In c earlier ->
       calculateTotalTravelTime final < calculateTotalTravelTime c) /\
    (forall c, In c later ->
       calculateTotalTravelTime final <= calculateTotalTravelTime c).
Proof.
  revert seen mid best.
  induction combinations as [| c combinations IH]; intros seen mid best Hseen Hmid.
  - exists best, seen, mid. rewrite app_nil_r. now repeat split.
  - cbn [fold_left]. unfold considerCombination at 2. cbn [snd ltNum].
    destruct (Z.ltb_spec (calculateTotalTravelTime c)
                (calculateTotalTravelTime best)) as [Hlt | Hge].
    + destruct (IH (seen ++ best :: mid) [] c) as (final & earlier & later & H).
      * intros c' Hin. apply in_app_iff in Hin as [Hin | [<- | Hin]].
        -- specialize (Hseen c' Hin). lia.
        -- exact Hlt.
        -- specialize (Hmid c' Hin). lia.
      * intros c' [].
      * exists final, earlier, later.
        rewrite <- app_assoc in H. cbn [app] in H.
        exact H.
    + destruct (IH seen (mid ++ [c]) best Hseen) as (final & earlier & later & H).
      * intros c' Hin. apply in_app_iff in Hin as [Hin | [<- | []]].
        -- now apply Hmid.
        -- exact Hge.
      * exists final, earlier, later.
        rewrite <- app_assoc in H. cbn [app] in H. exact H.
Qed.

(** The whole [forEach] over a non-empty array of combinations: the first
    combination with the least travel time wins. *)
Lemma considerCombination_best (combinations : list (list Room)) :
  combinations <> [] ->
  exists best earlier later,
    fold_left considerCombination combinations ([], Infinity)
    = (best, Finite (calculateTotalTravelTime best)) /\
    combinations = earlier ++ best :: later /\
    (forall c, In c earlier ->
       calculateTotalTravelTime best < calculateTotalTravelTime c) /\
    (forall c, In c later ->
       calculateTotalTravelTime best <= calculateTotalTravelTime c).
Proof.
  destruct combinations as [| c combinations]; [congruence | intros _].
  cbn [fold_left]. unfold considerCombination at 2. cbn [snd ltNum].
  destruct (considerCombination_fold combinations [] [] c)
    as (final & earlier & later & H); try (intros c' []).
  exists final, earlier, later. exact H.
Qed.

(** ** The allocator, path by path *)

Lemma availableOnFloor_le (inv : list Room) (fl : Z) :
  len (getAvailableRoomsOnFloor inv fl) <= len (availableRooms inv).
Proof.
  unfold getAvailableRoomsOnFloor, availableRooms. rewrite sort_len.
  induction inv as [| room inv IH]; simpl; [lia |].
  destruct (floor room =? fl), (isAvailable room); simpl;
    rewrite ?len_cons; lia.
Qed.

Lemma findOptimalRooms_same_floor (inv : list Room) (numRooms fl : Z) :
  numRooms <= MAX_ROOMS_PER_BOOKING ->
  1 <= fl <= FLOORS ->
  numRooms <= len (getAvailableRoomsOnFloor inv fl) ->
  (forall fl', 1 <= fl' < fl ->
               len (getAvailableRoomsOnFloor inv fl') < numRooms) ->
  findOptimalRooms inv numRooms = Some (sameFloorResult inv numRooms fl).
Proof.
  intros Hcap Hfl Hroom Hlower. unfold findOptimalRooms.
  destruct (Z.gtb_spec numRooms MAX_ROOMS_PER_BOOKING) as [Hgt | _]; [lia |].
  pose proof (availableOnFloor_le inv fl) as Hle. unfold availableRooms in Hle.
  destruct (Z.ltb_spec (len (filter isAvailable inv)) numRooms) as [Hlt | _];
    [lia |].
  destruct (floorRange_split fl Hfl) as (before & after & -> & Hbefore).
  rewrite sameFloorSearch_stops; [reflexivity | | exact Hroom].
  intros fl' Hin. apply Hlower, Hbefore, Hin.
Qed.

Lemma findOptimalRooms_cross_floor (inv : list Room) (numRooms : Z) :
  numRooms <= MAX_ROOMS_PER_BOOKING ->
  numRooms <= len (availableRooms inv) ->
  (forall fl, 1 <= fl <= FLOORS ->
              len (getAvailableRoomsOnFloor inv fl) < numRooms) ->
  findOptimalRooms inv numRooms
  = if (numRooms <=? 3) || (len (availableRooms inv) <=? 20) then
      combinations <- generateCombinations (availableRooms inv) numRooms ;;
      Some (finish numRooms
              (fold_left considerCombination combinations ([], Infinity)))
    else
      let bestCombination :=
        slice0 (sort byFloorThenPosition (availableRooms inv)) numRooms in
      Some (finish numRooms
              (bestCombination,
               Finite (calculateTotalTravelTime bestCombination))).
Proof.
  intros Hcap Havail Hnone. unfold findOptimalRooms, availableRooms in *.
  destruct (Z.gtb_spec numRooms MAX_ROOMS_PER_BOOKING) as [Hgt | _]; [lia |].
  destruct (Z.ltb_spec (len (filter isAvailable inv)) numRooms) as [Hlt | _];
    [lia |].
  assert (Hs : sameFloorSearch inv numRooms floorRange = None).
  { apply sameFloorSearch_none. intros fl Hin. apply Hnone, floorRange_In, Hin. }
  rewrite Hs. reflexivity.
Qed.

(** Strategy 2 is only ever entered with a request of at least one room:
    floor 1 always has at least 0 available rooms. *)
Lemma sameFloorSearch_none_positive (inv : list Room) (numRooms : Z) :
  sameFloorSearch inv numRooms floorRange = None -> 1 <= numRooms.
Proof.
  intros H. rewrite sameFloorSearch_none in H.
  assert (H1 : In 1 floorRange) by (apply floorRange_In; unfold FLOORS; lia).
  specialize (H 1 H1). pose proof (len_nonneg (getAvailableRoomsOnFloor inv 1)).
  lia.
Qed.

Lemma spec_combinations_nonempty {A : Type} (l : list A) (k : nat) :
  (k <= List.length l)%nat -> spec_combinations l k <> [].
Proof.
  intros Hk Hnil.
  assert (Hin : In (firstn k l) (spec_combinations l k)).
  { apply spec_combinations_In. split; [| rewrite length_firstn; lia].
    clear Hk Hnil. revert k. induction l as [| x l IH]; intros [| k]; simpl.
    - constructor.
    - constructor.
    - apply subseq_nil_l.
    - apply subseq_take, IH. }
  rewrite Hnil in Hin. exact Hin.
Qed.

(** [findOptimalRooms] returns on every inventory and every request. *)
Lemma findOptimalRooms_total (inv : list Room) (numRooms : Z) :
  exists result, findOptimalRooms inv numRooms = Some result.
Proof.
  unfold findOptimalRooms.
  destruct (numRooms >? MAX_ROOMS_PER_BOOKING); [eauto |].
  destruct (len (filter isAvailable inv) <? numRooms); [eauto |].
  destruct (sameFloorSearch inv numRooms floorRange) eqn:Hs; [eauto |].
  apply sameFloorSearch_none_positive in Hs.
  rewrite (generateCombinations_refines _ _ Hs). cbn [bind].
  destruct ((numRooms <=? 3) || (len (filter isAvailable inv) <=? 20)); eauto.
Qed.

(** A request is checked against the ten floors by running the test on
    [floorRange]. *)
Lemma no_floor_suffices_check (inv : list Room) (numRooms : Z) :
  forallb (fun fl => len (getAvailableRoomsOnFloor inv fl) <? numRooms)
    floorRange = true ->
  forall fl, 1 <= fl <= FLOORS ->
             len (getAvailableRoomsOnFloor inv fl) < numRooms.
Proof.
  intros H fl Hfl. rewrite forallb_forall in H.
  apply Z.ltb_lt, H, floorRange_In, Hfl.
Qed.

Lemma finish_success (numRooms : Z) (best : list Room) (t : JSNum) :
  len best = numRooms ->
  finish numRooms (best, t)
  = mkResult best t true
      ("Booked " ++ show numRooms ++ " rooms across multiple floors")%string.
Proof.
  intros H. unfold finish. now rewrite (proj2 (Z.eqb_eq _ _) H).
Qed.

(** Any choice of distinct entries of a list, in any order, is a
    rearrangement of one of its order-preserving selections. *)
Lemma selection_subseq {A : Type} (l c rest : list A) :
  Permutation (c ++ rest) l ->
  exists c', subseq c' l /\ Permutation c c'.
Proof.
  revert c rest. induction l as [| x l IH]; intros c rest Hp.
  - apply Permutation_sym, Permutation_nil, app_eq_nil in Hp as [-> _].
    exists []. split; constructor.
  - assert (Hin : In x (c ++ rest))
      by (eapply Permutation_in; [apply Permutation_sym, Hp | now left]).
    apply in_app_or in Hin as [Hin | Hin];
      apply in_split in Hin as (l1 & l2 & ->).
    + rewrite <- app_assoc in Hp. cbn [app] in Hp.
      apply Permutation_sym, Permutation_cons_app_inv, Permutation_sym in Hp.
      rewrite app_assoc in Hp.
      destruct (IH (l1 ++ l2) rest Hp) as (c' & Hs & Hc).
      exists (x :: c'). split; [now apply subseq_take |].
      apply Permutation_sym, Permutation_cons_app, Permutation_sym, Hc.
    + rewrite app_assoc in Hp.
      apply Permutation_sym, Permutation_cons_app_inv, Permutation_sym in Hp.
      rewrite <- app_assoc in Hp.
      destruct (IH c (l1 ++ l2) Hp) as (c' & Hs & Hc).
      exists c'. split; [now apply subseq_skip | exact Hc].
Qed.

(** ** Strategy 2: exhaustive search *)

(** C1. When between 1 and 5 rooms are requested, enough rooms are
    available, none of the ten floors has that many available rooms, and
    the request is for at most 3 rooms or at most 20 rooms are available,
    the allocator succeeds with a combination [best] of the available
    rooms whose travel time is least among all combinations of that size
    (as order-preserving selections, and as selections listed in any
    order); [best] is the first such combination in the order the
    generator enumerates them over the available rooms in inventory order:
    every combination before it is strictly worse. *)
Theorem exhaustive_search_optimal (inv : list Room) (numRooms : Z) :
  1 <= numRooms <= MAX_ROOMS_PER_BOOKING ->
  numRooms <= len (availableRooms inv) ->
  (forall fl, 1 <= fl <= FLOORS ->
              len (getAvailableRoomsOnFloor inv fl) < numRooms) ->
  numRooms <= 3 \/ len (availableRooms inv) <= 20 ->
  exists best earlier later,
    findOptimalRooms inv numRooms
    = Some (mkResult best (Finite (calculateTotalTravelTime best)) true
              ("Booked " ++ show numRooms ++ " rooms across multiple floors"))
    /\ generateCombinations (availableRooms inv) numRooms
       = Some (earlier ++ best :: later)
    /\ (forall c, In c earlier ->
          calculateTotalTravelTime best < calculateTotalTravelTime c)
    /\ (forall c, subseq c (availableRooms inv) -> len c = numRooms ->
          calculateTotalTravelTime best <= calculateTotalTravelTime c)
    /\ (forall c rest, Permutation (c ++ rest) (availableRooms inv) ->
          len c = numRooms ->
          calculateTotalTravelTime best <= calculateTotalTravelTime c)
    /\ subseq best (availableRooms inv)
    /\ len best = numRooms.
Proof.
  intros [H1 Hcap] Havail Hnone Hguard.
  rewrite findOptimalRooms_cross_floor by assumption.
  replace ((numRooms <=? 3) || (len (availableRooms inv) <=? 20)) with true
    by (symmetry; apply orb_true_iff; rewrite !Z.leb_le; exact Hguard).
  rewrite generateCombinations_refines by assumption. cbn [bind].
  set (k := Z.to_nat numRooms).
  destruct (considerCombination_best (spec_combinations (availableRooms inv) k))
    as (best & earlier & later & Hfold & Hsplit & Hearlier & Hlater).
  { apply spec_combinations_nonempty. unfold len in Havail. lia. }
  assert (Hbest : subseq best (availableRooms inv) /\ List.length best = k).
  { apply spec_combinations_In. rewrite Hsplit. apply in_or_app. right. now left. }
  destruct Hbest as [Hsub Hlen].
  assert (Hlen' : len best = numRooms) by (unfold len; lia).
  assert (Hmin : forall c, subseq c (availableRooms inv) -> len c = numRooms ->
            calculateTotalTravelTime best <= calculateTotalTravelTime c).
  { intros c Hc Hclen.
    assert (Hin : In c (earlier ++ best :: later)).
    { rewrite <- Hsplit. apply spec_combinations_In.
      split; [exact Hc | unfold len in Hclen; lia]. }
    apply in_app_iff in Hin as [Hin | [<- | Hin]].
    - specialize (Hearlier c Hin). lia.
    - lia.
    - now apply Hlater. }
  exists best, earlier, later. rewrite Hfold, Hsplit.
  rewrite finish_success by exact Hlen'.
  repeat split; try assumption.
  intros c rest Hp Hclen.
  destruct (selection_subseq _ _ _ Hp) as (c' & Hs & Hc).
  rewrite (calculateTotalTravelTime_perm c c' Hc). apply Hmin; [exact Hs |].
  unfold len in *. now rewrite <- (Permutation_length Hc).
Qed.

(** Rooms 110, 201 and 305 are available: the pairs (110, 201) and
    (201, 305) both cost 2 minutes and the first one is returned. *)
Lemma exhaustive_search_optimal_witness :
  let inv := inventoryWith
               (fun n => if (n =? 110) || (n =? 201) || (n =? 305)
                         then AVAILABLE else OCCUPIED) in
  exists best earlier later,
    findOptimalRooms inv 2
    = Some (mkResult best (Finite (calculateTotalTravelTime best)) true
              "Booked 2 rooms across multiple floors")
    /\ generateCombinations (availableRooms inv) 2
       = Some (earlier ++ best :: later)
    /\ (forall c, In c earlier ->
          calculateTotalTravelTime best < calculateTotalTravelTime c)
    /\ (forall c, subseq c (availableRooms inv) -> len c = 2 ->
          calculateTotalTravelTime best <= calculateTotalTravelTime c)
    /\ (forall c rest, Permutation (c ++ rest) (availableRooms inv) ->
          len c = 2 ->
          calculateTotalTravelTime best <= calculateTotalTravelTime c)
    /\ subseq best (availableRooms inv)
    /\ len best = 2.
Proof.
  intros inv. apply (exhaustive_search_optimal inv 2).
  - vm_compute. split; congruence.
  - vm_compute. congruence.
  - apply no_floor_suffices_check. vm_compute. reflexivity.
  - left. lia.
Defined.

Example exhaustive_search_tie :
  findOptimalRooms
    (inventoryWith (fun n => if (n =? 110) || (n =? 201) || (n =? 305)
                             then AVAILABLE else OCCUPIED)) 2
  = Some (mkResult [mkRoom 110 1 10 AVAILABLE; mkRoom 201 2 1 AVAILABLE]
            (Finite 2) true "Booked 2 rooms across multiple floors").
Proof. vm_compute. reflexivity. Qed.

(** ** Strategy 1: same floor *)

Lemma firstn_skipn_sorted {A : Type} (R : A -> A -> Prop) (l : list A) (k : nat) :
  StronglySorted R l -> StronglySorted R (firstn k l ++ skipn k l).
Proof. now rewrite firstn_skipn. Qed.

(** C2. When between 1 and 5 rooms are requested and [fl] is the lowest
    of the floors 1..10 with that many available rooms, the allocator
    succeeds on floor [fl] without looking at travel times across floors:
    the selection, followed by the floor's other available rooms, is the
    list of the rooms available on [fl] in ascending position, so the
    selected rooms are the [numRooms] ones closest to the stairs. *)
Theorem same_floor_preference (inv : list Room) (numRooms fl : Z) :
  1 <= numRooms <= MAX_ROOMS_PER_BOOKING ->
  1 <= fl <= FLOORS ->
  numRooms <= len (getAvailableRoomsOnFloor inv fl) ->
  (forall fl', 1 <= fl' < fl ->
               len (getAvailableRoomsOnFloor inv fl') < numRooms) ->
  exists selected others,
    findOptimalRooms inv numRooms
    = Some (mkResult selected (Finite (calculateTotalTravelTime selected)) true
              ("Booked " ++ show numRooms ++ " rooms on Floor " ++ show fl))
    /\ len selected = numRooms
    /\ Permutation (selected ++ others)
         (filter (fun room => (floor room =? fl) && isAvailable room) inv)
    /\ StronglySorted positionLe (selected ++ others).
Proof.
  intros [H1 Hcap] Hfl Hroom Hlower.
  exists (firstn (Z.to_nat numRooms) (getAvailableRoomsOnFloor inv fl)),
         (skipn (Z.to_nat numRooms) (getAvailableRoomsOnFloor inv fl)).
  rewrite (findOptimalRooms_same_floor inv numRooms fl) by assumption.
  unfold sameFloorResult. rewrite slice0_nonneg by lia.
  split; [reflexivity |]. split; [| split].
  - rewrite <- slice0_nonneg by lia. apply slice0_len. lia.
  - rewrite firstn_skipn. apply getAvailableRoomsOnFloor_perm.
  - apply firstn_skipn_sorted, sort_byPosition_sorted.
Qed.

(** Floor 1 has two available rooms, floor 2 none, floor 3 has rooms 309,
    302 and 304, floor 4 is free: three rooms are booked on floor 3. *)
Lemma same_floor_preference_witness :
  let inv := inventoryWith
               (fun n => if (n =? 103) || (n =? 107) || (n =? 302)
                            || (n =? 304) || (n =? 309) || (400 <? n)
                         then AVAILABLE else OCCUPIED) in
  exists selected others,
    findOptimalRooms inv 3
    = Some (mkResult selected (Finite (calculateTotalTravelTime selected)) true
              "Booked 3 rooms on Floor 3")
    /\ len selected = 3
    /\ Permutation (selected ++ others)
         (filter (fun room => (floor room =? 3) && isAvailable room) inv)
    /\ StronglySorted positionLe (selected ++ others).
Proof.
  intros inv. apply (same_floor_preference inv 3 3).
  - vm_compute. split; congruence.
  - vm_compute. split; congruence.
  - vm_compute. congruence.
  - intros fl' Hfl'. assert (Hc : fl' = 1 \/ fl' = 2) by lia.
    destruct Hc as [-> | ->]; vm_compute; reflexivity.
Defined.

Example same_floor_fresh :
  findOptimalRooms initializeRooms 2
  = Some (mkResult [mkRoom 101 1 1 AVAILABLE; mkRoom 102 1 2 AVAILABLE]
            (Finite 1) true "Booked 2 rooms on Floor 1").
Proof. vm_compute. reflexivity. Qed.

(** ** Strategy 2: greedy fallback *)

(** C6. When 4 or 5 rooms are requested, more than 20 rooms are available
    and none of the ten floors has that many available rooms, the
    allocator succeeds with the first [numRooms] of the available rooms in
    ascending (floor, position) order. *)
Theorem greedy_fallback (inv : list Room) (numRooms : Z) :
  4 <= numRooms <= MAX_ROOMS_PER_BOOKING ->
  20 < len (availableRooms inv) ->
  (forall fl, 1 <= fl <= FLOORS ->
              len (getAvailableRoomsOnFloor inv fl) < numRooms) ->
  exists selected others,
    findOptimalRooms inv numRooms
    = Some (mkResult selected (Finite (calculateTotalTravelTime selected)) true
              ("Booked " ++ show numRooms ++ " rooms across multiple floors"))
    /\ len selected = numRooms
    /\ Permutation (selected ++ others) (availableRooms inv)
    /\ StronglySorted floorPositionLe (selected ++ others).
Proof.
  intros [H4 Hcap] Hmany Hnone. unfold MAX_ROOMS_PER_BOOKING in Hcap.
  set (sorted := sort byFloorThenPosition (availableRooms inv)).
  exists (firstn (Z.to_nat numRooms) sorted), (skipn (Z.to_nat numRooms) sorted).
  assert (Hlen : len (slice0 sorted numRooms) = numRooms).
  { apply slice0_len. unfold sorted. rewrite sort_len. lia. }
  rewrite findOptimalRooms_cross_floor;
    [| unfold MAX_ROOMS_PER_BOOKING; lia | lia | assumption].
  replace ((numRooms <=? 3) || (len (availableRooms inv) <=? 20)) with false
    by (symmetry; apply orb_false_iff; rewrite !Z.leb_gt; lia).
  cbv zeta. fold sorted. rewrite finish_success by exact Hlen.
  rewrite slice0_nonneg in * by lia.
  split; [reflexivity |]. split; [exact Hlen | split].
  - rewrite firstn_skipn. apply sort_perm.
  - apply firstn_skipn_sorted, sort_byFloorThenPosition_sorted.
Qed.

(** Positions 8, 9 and 10 are available on floors 1 to 7: 21 rooms, at
    most three on a floor. *)
Lemma greedy_fallback_witness :
  let inv := inventoryWith
               (fun n => if (n <? 800) && (8 <=? n mod 100)
                         then AVAILABLE else OCCUPIED) in
  exists selected others,
    findOptimalRooms inv 4
    = Some (mkResult selected (Finite (calculateTotalTravelTime selected)) true
              "Booked 4 rooms across multiple floors")
    /\ len selected = 4
    /\ Permutation (selected ++ others) (availableRooms inv)
    /\ StronglySorted floorPositionLe (selected ++ others).
Proof.
  intros inv. apply (greedy_fallback inv 4).
  - vm_compute. split; congruence.
  - vm_compute. reflexivity.
  - apply no_floor_suffices_check. vm_compute. reflexivity.
Defined.

Example greedy_fallback_rooms :
  findOptimalRooms
    (inventoryWith (fun n => if (n <? 800) && (8 <=? n mod 100)
                             then AVAILABLE else OCCUPIED)) 4
  = Some (mkResult [mkRoom 108 1 8 AVAILABLE; mkRoom 109 1 9 AVAILABLE;
                    mkRoom 110 1 10 AVAILABLE; mkRoom 208 2 8 AVAILABLE]
            (Finite 4) true "Booked 4 rooms across multiple floors").
Proof. vm_compute. reflexivity. Qed.

(** ** Postconditions of the allocator *)

Lemma finish_post (numRooms : Z) (best : list Room) :
  let result := finish numRooms (best, Finite (calculateTotalTravelTime best)) in
  (success result = false ->
   rooms result = [] /\ totalTravelTime result = Finite 0) /\
  (success result = true ->
   rooms result = best /\ len best = numRooms /\
   totalTravelTime result = Finite (calculateTotalTravelTime best)).
Proof.
  unfold finish. destruct (Z.eqb_spec (len best) numRooms); simpl;
    split; intros; try discriminate; auto.
Qed.

(** Every returned result is well formed: a failure carries no rooms and
    travel time 0; a success carries the travel time of its rooms, exactly
    [numRooms] of them when [numRooms] is not negative, and travel time 0
    when a single room was requested. *)
Lemma findOptimalRooms_postcondition (inv : list Room) (numRooms : Z)
      (result : BookingResult) :
  findOptimalRooms inv numRooms = Some result ->
  wellFormedResult numRooms result.
Proof.
  unfold wellFormedResult, findOptimalRooms.
  destruct (numRooms >? MAX_ROOMS_PER_BOOKING).
  { intros [= <-]. simpl. split; [auto | discriminate]. }
  destruct (Z.ltb_spec (len (filter isAvailable inv)) numRooms) as [_ | Hge].
  { intros [= <-]. simpl. split; [auto | discriminate]. }
  destruct (sameFloorSearch inv numRooms floorRange) as [r |] eqn:Hs.
  - intros [= <-]. apply sameFloorSearch_some in Hs as (fl & _ & Hle & ->).
    unfold sameFloorResult. simpl. split; [discriminate | intros _].
    split; [reflexivity |]. split.
    + intros H0. apply slice0_len. lia.
    + intros ->. rewrite calculateTotalTravelTime_short; [reflexivity |].
      rewrite slice0_len; lia.
  - apply sameFloorSearch_none_positive in Hs.
    rewrite (generateCombinations_refines _ _ Hs). cbn [bind].
    assert (Hpost : forall best,
      wellFormedResult numRooms
        (finish numRooms (best, Finite (calculateTotalTravelTime best)))).
    { intros best. unfold wellFormedResult.
      destruct (finish_post numRooms best) as [Hf Ht].
      split; [exact Hf |]. intros Hsucc.
      destruct (Ht Hsucc) as (-> & Hlen & ->).
      split; [reflexivity |]. split; [intros _; exact Hlen |].
      intros ->. now rewrite calculateTotalTravelTime_short by lia. }
    destruct ((numRooms <=? 3) || (len (filter isAvailable inv) <=? 20)).
    + destruct (considerCombination_best
                  (spec_combinations (filter isAvailable inv) (Z.to_nat numRooms)))
        as (best & earlier & later & Hfold & _).
      { apply spec_combinations_nonempty. unfold len in Hge. lia. }
      rewrite Hfold. intros [= <-]. apply Hpost.
    + intros [= <-]. apply Hpost.
Qed.

(** ** The selected rooms come from the available ones *)

Lemma filter_split_perm {A : Type} (f : A -> bool) (l : list A) :
  Permutation (filter f l ++ filter (fun x => negb (f x)) l) l.
Proof.
  induction l as [| x l IH]; simpl; [constructor |].
  destruct (f x); simpl.
  - now constructor.
  - apply Permutation_sym, Permutation_cons_app, Permutation_sym, IH.
Qed.

Lemma filter_floor_available (inv : list Room) (fl : Z) :
  filter (fun room => (floor room =? fl) && isAvailable room) inv
  = filter (fun room => floor room =? fl) (availableRooms inv).
Proof.
  unfold availableRooms. induction inv as [| room inv IH]; simpl; [reflexivity |].
  destruct (isAvailable room), (floor room =? fl) eqn:Hf; simpl; rewrite ?Hf;
    now rewrite IH.
Qed.

Lemma subseq_rest {A : Type} (c l : list A) :
  subseq c l -> exists rest, Permutation (c ++ rest) l.
Proof.
  induction 1 as [| x c l _ [rest IH] | x c l _ [rest IH]].
  - exists []. constructor.
  - exists (x :: rest). apply Permutation_sym, Permutation_cons_app.
    now apply Permutation_sym.
  - exists rest. simpl. now constructor.
Qed.

Lemma slice0_rest {A : Type} (l : list A) (n : Z) :
  exists rest, slice0 l n ++ rest = l.
Proof.
  unfold slice0. destruct (n <? 0); eexists; apply firstn_skipn.
Qed.

Lemma Some_inj {A : Type} (a b : A) : Some a = Some b -> a = b.
Proof. congruence. Qed.

(** On every path the rooms of the result are distinct entries of the
    list of available rooms. *)
Lemma findOptimalRooms_selects_available (inv : list Room) (numRooms : Z)
      (result : BookingResult) :
  findOptimalRooms inv numRooms = Some result ->
  exists rest, Permutation (rooms result ++ rest) (availableRooms inv).
Proof.
  unfold findOptimalRooms. fold (availableRooms inv).
  destruct (numRooms >? MAX_ROOMS_PER_BOOKING).
  { intros [= <-]. exists (availableRooms inv). apply Permutation_refl. }
  destruct (Z.ltb_spec (len (availableRooms inv)) numRooms) as [_ | Hge].
  { intros [= <-]. exists (availableRooms inv). apply Permutation_refl. }
  destruct (sameFloorSearch inv numRooms floorRange) as [r |] eqn:Hs.
  - intros [= <-]. apply sameFloorSearch_some in Hs as (fl & _ & _ & ->).
    unfold sameFloorResult. cbn [rooms].
    destruct (slice0_rest (getAvailableRoomsOnFloor inv fl) numRooms)
      as [rest Hrest].
    exists (rest ++ filter (fun room => negb (floor room =? fl))
                      (availableRooms inv)).
    rewrite app_assoc, Hrest.
    eapply perm_trans; [| apply (filter_split_perm (fun room => floor room =? fl))].
    apply Permutation_app_tail. rewrite <- filter_floor_available.
    apply getAvailableRoomsOnFloor_perm.
  - apply sameFloorSearch_none_positive in Hs.
    rewrite (generateCombinations_refines _ _ Hs). cbn [bind].
    destruct ((numRooms <=? 3) || (len (availableRooms inv) <=? 20)).
    + destruct (considerCombination_best
                  (spec_combinations (availableRooms inv) (Z.to_nat numRooms)))
        as (best & earlier & later & Hfold & Hsplit & _).
      { apply spec_combinations_nonempty. unfold len in Hge. lia. }
      rewrite Hfold. intros Hr. apply Some_inj in Hr. subst result.
      destruct (finish_post numRooms best) as [Hf Ht].
      destruct (success (finish numRooms _)).
      * destruct (Ht eq_refl) as (-> & _). apply subseq_rest.
        eapply proj1, spec_combinations_In. rewrite Hsplit.
        apply in_or_app. right. now left.
      * destruct (Hf eq_refl) as (-> & _).
        exists (availableRooms inv). apply Permutation_refl.
    + intros Hr. apply Some_inj in Hr. subst result.
      set (best := slice0 (sort byFloorThenPosition (availableRooms inv)) numRooms).
      destruct (finish_post numRooms best) as [Hf Ht].
      destruct (success (finish numRooms _)).
      * destruct (Ht eq_refl) as (-> & _). unfold best.
        destruct (slice0_rest (sort byFloorThenPosition (availableRooms inv))
                    numRooms) as [rest Hrest].
        exists rest. rewrite Hrest. apply sort_perm.
      * destruct (Hf eq_refl) as (-> & _).
        exists (availableRooms inv). apply Permutation_refl.
Qed.

Lemma NoDup_map_filter {A B : Type} (g : A -> B) (f : A -> bool) (l : list A) :
  NoDup (map g l) -> NoDup (map g (filter f l)).
Proof.
  induction l as [| x l IH]; simpl; [auto |].
  intros H. inversion H as [| y l' Hnot Hnd]; subst.
  destruct (f x); simpl; [| now apply IH].
  constructor; [| now apply IH].
  intros Hin. apply Hnot. apply in_map_iff in Hin as (z & Hz & Hin).
  apply in_map_iff. exists z. split; [exact Hz |].
  now apply filter_In in Hin.
Qed.

(** C9. On an inventory whose room numbers are unique, a successful
    result never names a room number twice, and every room in it is a room
    of the inventory with status Available; this holds for every request
    and whichever strategy produced the result. *)
Theorem selection_distinct_and_available (inv : list Room) (numRooms : Z)
        (result : BookingResult) :
  NoDup (map number inv) ->
  findOptimalRooms inv numRooms = Some result ->
  success result = true ->
  NoDup (map number (rooms result)) /\
  Forall (fun room => In room inv /\ status room = AVAILABLE) (rooms result).
Proof.
  intros Hnd Hres _.
  destruct (findOptimalRooms_selects_available inv numRooms result Hres)
    as [rest Hperm].
  split.
  - apply (NoDup_map_filter number isAvailable) in Hnd.
    fold (availableRooms inv) in Hnd.
    apply (Permutation_map number), Permutation_sym in Hperm.
    apply (Permutation_NoDup Hperm) in Hnd.
    rewrite map_app in Hnd. now apply NoDup_app_remove_r in Hnd.
  - apply Forall_forall. intros room Hin.
    assert (Ha : In room (availableRooms inv)).
    { eapply Permutation_in; [exact Hperm |]. apply in_or_app. now left. }
    apply filter_In in Ha as [Hinv Hav]. split; [exact Hinv |].
    now apply isAvailable_true.
Qed.

(** ** The inventory invariant *)

Lemma Sorted_lt_NoDup (l : list Z) : Sorted Z.lt l -> NoDup l.
Proof.
  intros Hs. apply Sorted_StronglySorted in Hs; [| exact Z.lt_trans].
  induction Hs as [| x l _ IH Hall]; constructor; [| exact IH].
  intros Hin. rewrite Forall_forall in Hall. specialize (Hall x Hin). lia.
Qed.

Lemma initializeRooms_numbers_unique : NoDup (map number initializeRooms).
Proof. apply Sorted_lt_NoDup. vm_compute. repeat constructor. Qed.

Lemma initializeRooms_is_inventory : is_inventory initializeRooms.
Proof. reflexivity. Qed.

Lemma inventoryWith_is_inventory (pick : Z -> RoomStatus) :
  is_inventory (inventoryWith pick).
Proof.
  unfold is_inventory, inventoryWith. rewrite map_map. reflexivity.
Qed.

Lemma inventory_numbers_unique (inv : list Room) :
  is_inventory inv -> NoDup (map number inv).
Proof.
  intros H.
  assert (Hn : forall l, map number l = map (fun t => fst (fst t)) (map topology l))
    by (intros l; rewrite map_map; reflexivity).
  rewrite Hn, H, <- Hn. exact initializeRooms_numbers_unique.
Qed.

Lemma inventory_length (inv : list Room) :
  is_inventory inv -> List.length inv = 97%nat.
Proof.
  intros H. apply (f_equal (@List.length _)) in H.
  rewrite !length_map in H. exact H.
Qed.

Lemma inventory_floor_range (inv : list Room) (room : Room) :
  is_inventory inv -> In room inv -> 1 <= floor room <= FLOORS.
Proof.
  intros H Hin.
  assert (Hf : In (floor room) (map (fun t => snd (fst t)) (map topology inv))).
  { rewrite map_map. apply in_map_iff. exists room. split; [reflexivity | exact Hin]. }
  rewrite H in Hf. revert Hf. generalize (floor room). intros fl Hf.
  assert (Hall : Forall (fun fl => 1 <= fl <= FLOORS)
                   (map (fun t => snd (fst t)) (map topology initializeRooms))).
  { vm_compute. repeat constructor; discriminate. }
  rewrite Forall_forall in Hall. now apply Hall.
Qed.

Lemma commitBooking_topology (inv : list Room) (result : BookingResult) :
  map topology (commitBooking inv result) = map topology inv.
Proof.
  unfold commitBooking, markSelected. destruct (success result); [| reflexivity].
  rewrite map_map. apply map_ext. intros room.
  destruct (existsb _ (rooms result)); reflexivity.
Qed.

(** Whatever the buttons do, the page holds the 97 rooms of the building,
    in construction order. *)
Lemma reachable_is_inventory (s : PageState) :
  reachable s -> is_inventory (st_rooms s).
Proof.
  induction 1 as [| s parsed _ IH | s s' _ IH Hbook | s draws _ IH | s _ IH].
  - reflexivity.
  - exact IH.
  - unfold bookRooms in Hbook.
    destruct (findOptimalRooms (st_rooms s) (requestedRooms s)) as [result |];
      [| discriminate].
    cbn [bind] in Hbook. apply Some_inj in Hbook. subst s'. cbn [st_rooms].
    unfold is_inventory. now rewrite commitBooking_topology.
  - unfold is_inventory. cbn [generateRandomOccupancy st_rooms].
    now rewrite randomize_topology.
  - reflexivity.
Qed.

(** [bookRooms] always completes. *)
Lemma bookRooms_total (s : PageState) : exists s', bookRooms s = Some s'.
Proof.
  unfold bookRooms.
  destruct (findOptimalRooms_total (st_rooms s) (requestedRooms s)) as [r ->].
  cbn [bind]. eauto.
Qed.

Lemma selection_distinct_and_available_witness :
  let inv := inventoryWith
               (fun n => if (n =? 110) || (n =? 201) || (n =? 305)
                         then AVAILABLE else OCCUPIED) in
  let result := mkResult [mkRoom 110 1 10 AVAILABLE; mkRoom 201 2 1 AVAILABLE]
                  (Finite 2) true "Booked 2 rooms across multiple floors" in
  NoDup (map number (rooms result)) /\
  Forall (fun room => In room inv /\ status room = AVAILABLE) (rooms result).
Proof.
  intros inv result.
  apply (selection_distinct_and_available inv 2 result).
  - apply inventory_numbers_unique, inventoryWith_is_inventory.
  - vm_compute. reflexivity.
  - reflexivity.
Defined.

Lemma commitBooking_frame_witness :
  let result := mkResult [mkRoom 101 1 1 AVAILABLE; mkRoom 102 1 2 AVAILABLE]
                  (Finite 1) true "Booked 2 rooms on Floor 1" in
  nth_error (commitBooking initializeRooms result) 1
  = Some (mkRoom 102 1 2 SELECTED) /\
  nth_error (commitBooking initializeRooms result) 2
  = Some (mkRoom 103 1 3 AVAILABLE).
Proof.
  intros result.
  destruct (commitBooking_frame initializeRooms result) as [_ Hcommit].
  destruct (Hcommit eq_refl) as [_ Hrooms].
  split.
  - apply (Hrooms 1%nat (mkRoom 102 1 2 AVAILABLE) eq_refl).
    simpl. right. left. reflexivity.
  - apply (Hrooms 2%nat (mkRoom 103 1 3 AVAILABLE) eq_refl).
    simpl. intros [H | [H | []]]; discriminate H.
Defined.

(** The end-to-end example of the specification: on the fresh inventory a
    request for two rooms books 101 and 102, and committing it marks
    exactly these two Selected. *)
Example book_two_rooms_fresh :
  exists s',
    bookRooms (mkState initializeRooms 2 None) = Some s' /\
    map (fun room => (number room, status room)) (firstn 3 (st_rooms s'))
    = [(101, SELECTED); (102, SELECTED); (103, AVAILABLE)] /\
    skipn 2 (st_rooms s') = skipn 2 initializeRooms.
Proof. eexists. split; [vm_compute; reflexivity |]. split; reflexivity. Qed.

(** ** Requests below the documented minimum *)

(** The input never hands 0 to the allocator, but it does hand over a
    negative count. *)
Lemma parsedOrOne_nonzero (parsed : option Z) : parsedOrOne parsed <> 0.
Proof.
  destruct parsed as [n |]; simpl; [| discriminate].
  destruct (Z.eqb_spec n 0); [discriminate | assumption].
Qed.

Example negative_request_reachable :
  reachable (setRequestedRooms (Some (-1)) initialState) /\
  requestedRooms (setRequestedRooms (Some (-1)) initialState) = -1.
Proof. split; [apply reach_count, reach_init | reflexivity]. Qed.

(** C3, at the input where it fails.  A request for -1 rooms passes the
    cap and the availability test, floor 1 has at least -1 available
    rooms, and [slice(0, -1)] keeps all of them but the last: on the fresh
    inventory the result is a success with 9 rooms. *)
Theorem negative_request_books_nine_rooms :
  findOptimalRooms initializeRooms (-1)
  = Some (mkResult (firstn 9 initializeRooms) (Finite 8) true
            "Booked -1 rooms on Floor 1")
  /\ len (firstn 9 initializeRooms) <> -1.
Proof. split; [vm_compute; reflexivity | discriminate]. Qed.

(** Clicking "Book Rooms" in that state marks rooms 101 to 109 Selected. *)
Example negative_request_commits_nine_rooms :
  exists s',
    bookRooms (setRequestedRooms (Some (-1)) initialState) = Some s' /\
    map number (filter (fun room => RoomStatus_eqb (status room) SELECTED)
                  (st_rooms s'))
    = [101; 102; 103; 104; 105; 106; 107; 108; 109].
Proof. eexists. split; [vm_compute; reflexivity | reflexivity]. Qed.

(** ** The building *)

Example initializeRooms_topology :
  List.length initializeRooms = 97%nat /\
  map (fun fl => len (filter (fun room => floor room =? fl) initializeRooms))
    floorRange
  = ROOMS_PER_FLOOR /\
  map number (filter (fun room => floor room =? 1) initializeRooms)
  = [101; 102; 103; 104; 105; 106; 107; 108; 109; 110] /\
  map number (filter (fun room => floor room =? 10) initializeRooms)
  = [1001; 1002; 1003; 1004; 1005; 1006; 1007].
Proof. repeat split; vm_compute; reflexivity. Qed.

(** * Further properties of the page's code *)

(** ** Travel time between rooms *)

(** X1. The travel time between two rooms is symmetric and never
    negative, and it is 0 exactly when the two rooms are on the same floor
    at the same position. *)
Theorem travel_time_symmetric_and_definite (a b : Room) :
  calculateTravelTime a b = calculateTravelTime b a /\
  0 <= calculateTravelTime a b /\
  (calculateTravelTime a b = 0 <->
   floor a = floor b /\ position a = position b).
Proof.
  split; [apply calculateTravelTime_sym |].
  split; [apply calculateTravelTime_nonneg |].
  unfold calculateTravelTime.
  destruct (Z.eqb_spec (floor a) (floor b)); lia.
Qed.

Lemma wellPlaced_position_range (room : Room) :
  wellPlaced room -> 1 <= position room <= 10.
Proof.
  intros (Hf & Hp & _). unfold FLOORS in Hf.
  assert (Hc : floor room = 1 \/ floor room = 2 \/ floor room = 3 \/
               floor room = 4 \/ floor room = 5 \/ floor room = 6 \/
               floor room = 7 \/ floor room = 8 \/ floor room = 9 \/
               floor room = 10) by lia.
  repeat (destruct Hc as [Hc | Hc]; [rewrite Hc in Hp; simpl in Hp; lia |]).
  rewrite Hc in Hp. simpl in Hp. lia.
Qed.

(** X2. Between two rooms of the building the travel time is at most 18
    minutes, and at most 9 when they share a floor. *)
Theorem travel_time_bounded_in_building (a b : Room) :
  wellPlaced a -> wellPlaced b ->
  calculateTravelTime a b <= 18 /\
  (floor a = floor b -> calculateTravelTime a b <= 9).
Proof.
  intros Ha Hb.
  pose proof (wellPlaced_position_range a Ha).
  pose proof (wellPlaced_position_range b Hb).
  destruct Ha as (Hfa & _), Hb as (Hfb & _). unfold FLOORS in *.
  unfold calculateTravelTime.
  destruct (Z.eqb_spec (floor a) (floor b)); lia.
Qed.

Lemma travel_time_bounded_in_building_witness :
  calculateTravelTime (mkRoom 101 1 1 AVAILABLE) (mkRoom 1007 10 7 OCCUPIED) <= 18 /\
  (1 = 10 ->
   calculateTravelTime (mkRoom 101 1 1 AVAILABLE) (mkRoom 1007 10 7 OCCUPIED) <= 9).
Proof.
  apply (travel_time_bounded_in_building
           (mkRoom 101 1 1 AVAILABLE) (mkRoom 1007 10 7 OCCUPIED));
    unfold wellPlaced; simpl; unfold FLOORS; repeat split; lia.
Defined.

(** ** Travel time of a set of rooms *)

(** X3. The total travel time of a set of rooms does not depend on the
    order in which the rooms are passed in. *)
Theorem total_travel_time_order_independent (l1 l2 : list Room) :
  Permutation l1 l2 ->
  calculateTotalTravelTime l1 = calculateTotalTravelTime l2.
Proof. apply calculateTotalTravelTime_perm. Qed.

Lemma total_travel_time_order_independent_witness :
  calculateTotalTravelTime
    [mkRoom 305 3 5 AVAILABLE; mkRoom 101 1 1 AVAILABLE; mkRoom 302 3 2 AVAILABLE]
  = calculateTotalTravelTime
      [mkRoom 101 1 1 AVAILABLE; mkRoom 302 3 2 AVAILABLE; mkRoom 305 3 5 AVAILABLE].
Proof.
  apply (total_travel_time_order_independent
           [mkRoom 305 3 5 AVAILABLE; mkRoom 101 1 1 AVAILABLE;
            mkRoom 302 3 2 AVAILABLE]
           [mkRoom 101 1 1 AVAILABLE; mkRoom 302 3 2 AVAILABLE;
            mkRoom 305 3 5 AVAILABLE]).
  apply (Permutation_cons_app [_; _] []), Permutation_refl.
Defined.

Lemma last_cons_cons {A : Type} (b : A) (s : list A) (a : A) :
  last (b :: s) a = last s b.
Proof.
  revert a b. induction s as [| c s IH]; intros a b; [reflexivity |].
  change (last (b :: c :: s) a) with (last (c :: s) a).
  now rewrite (IH a c), (IH b c).
Qed.

Lemma last_In {A : Type} (s : list A) :
  forall a, In (last s a) (a :: s).
Proof.
  induction s as [| b s IH]; intros a; [now left |].
  rewrite last_cons_cons. right. apply IH.
Qed.

Lemma pathTime_same_floor (s : list Room) :
  forall a,
    StronglySorted floorPositionLe (a :: s) ->
    Forall (fun r => floor r = floor a) s ->
    pathTime (a :: s) = position (last s a) - position a.
Proof.
  induction s as [| b s IH]; intros a Hs Hf.
  - simpl. lia.
  - change (pathTime (a :: b :: s))
      with (calculateTravelTime a b + pathTime (b :: s)).
    inversion Hs as [| ? ? Hs' Hall]; subst.
    inversion Hf as [| ? ? Hb Hf']; subst.
    inversion Hall as [| ? ? Hab _]; subst.
    rewrite IH; [| exact Hs' |].
    + rewrite last_cons_cons. unfold calculateTravelTime.
      unfold floorPositionLe in Hab.
      destruct (Z.eqb_spec (floor a) (floor b)); lia.
    + eapply Forall_impl; [| exact Hf']. intros r Hr. simpl in Hr. congruence.
Qed.

Lemma sorted_last_greatest (s : list Room) :
  forall a r,
    StronglySorted floorPositionLe (a :: s) ->
    Forall (fun x => floor x = floor a) s ->
    In r (a :: s) -> position r <= position (last s a).
Proof.
  induction s as [| b s IH]; intros a r Hs Hf Hin.
  - destruct Hin as [<- | []]. simpl. lia.
  - rewrite last_cons_cons.
    inversion Hs as [| ? ? Hs' Hall]; subst.
    inversion Hf as [| ? ? Hb Hf']; subst.
    assert (Hf'' : Forall (fun x => floor x = floor b) s)
      by (eapply Forall_impl; [| exact Hf']; intros x Hx; simpl in Hx; congruence).
    destruct Hin as [<- | Hin].
    + inversion Hall as [| ? ? Hab _]; subst.
      specialize (IH b b Hs' Hf'' (or_introl eq_refl)).
      unfold floorPositionLe in Hab. lia.
    + apply (IH b r Hs' Hf'' Hin).
Qed.

Lemma same_floor_span (l : list Room) (fl : Z) :
  l <> [] ->
  Forall (fun r => floor r = fl) l ->
  exists lo hi,
    In lo l /\ In hi l /\
    (forall r, In r l -> position lo <= position r <= position hi) /\
    calculateTotalTravelTime l = position hi - position lo.
Proof.
  intros Hne Hfl.
  pose proof (sort_byFloorThenPosition_sorted l) as Hs.
  pose proof (sort_perm byFloorThenPosition l) as Hp.
  destruct (sort byFloorThenPosition l) as [| a s] eqn:Hsort.
  { apply Permutation_nil in Hp. contradiction. }
  assert (Hall : forall r, In r (a :: s) -> floor r = fl).
  { intros r Hr. rewrite Forall_forall in Hfl. apply Hfl.
    eapply Permutation_in; [exact Hp | exact Hr]. }
  assert (Hfa : Forall (fun r => floor r = floor a) s).
  { apply Forall_forall. intros r Hr.
    rewrite (Hall r (or_intror Hr)), (Hall a (or_introl eq_refl)). reflexivity. }
  pose proof (last_In s a) as Hlast.
  exists a, (last s a). split; [| split; [| split]].
  - eapply Permutation_in; [exact Hp | now left].
  - eapply Permutation_in; [exact Hp | exact Hlast].
  - intros r Hr.
    assert (Hr' : In r (a :: s))
      by (eapply Permutation_in; [apply Permutation_sym, Hp | exact Hr]).
    split; [| now apply sorted_last_greatest].
    destruct Hr' as [<- | Hr']; [lia |].
    inversion Hs as [| ? ? _ Hhd]; subst. rewrite Forall_forall in Hhd.
    specialize (Hhd r Hr'). unfold floorPositionLe in Hhd.
    rewrite Forall_forall in Hfa. specialize (Hfa r Hr'). lia.
  - unfold calculateTotalTravelTime. rewrite Hsort.
    destruct (Z.leb_spec (len l) 1) as [Hshort | _].
    + assert (Hlen : List.length (a :: s) = List.length l)
        by (apply Permutation_length, Hp).
      unfold len in Hshort. destruct s as [| b s']; [simpl; lia |].
      simpl in Hlen. lia.
    + now apply pathTime_same_floor.
Qed.

(** X4. For rooms that all lie on one floor the total travel time is the
    distance between the two outermost of them: the largest position minus
    the smallest. *)
Theorem same_floor_travel_time_is_span (l : list Room) (fl : Z) :
  l <> [] ->
  Forall (fun r => floor r = fl) l ->
  exists lo hi,
    In lo l /\ In hi l /\
    (forall r, In r l -> position lo <= position r <= position hi) /\
    calculateTotalTravelTime l = position hi - position lo.
Proof. apply same_floor_span. Qed.

Lemma same_floor_travel_time_is_span_witness :
  exists lo hi,
    In lo [mkRoom 307 3 7 AVAILABLE; mkRoom 302 3 2 AVAILABLE;
           mkRoom 305 3 5 AVAILABLE] /\
    In hi [mkRoom 307 3 7 AVAILABLE; mkRoom 302 3 2 AVAILABLE;
           mkRoom 305 3 5 AVAILABLE] /\
    (forall r, In r [mkRoom 307 3 7 AVAILABLE; mkRoom 302 3 2 AVAILABLE;
                     mkRoom 305 3 5 AVAILABLE] ->
               position lo <= position r <= position hi) /\
    calculateTotalTravelTime
      [mkRoom 307 3 7 AVAILABLE; mkRoom 302 3 2 AVAILABLE;
       mkRoom 305 3 5 AVAILABLE]
    = position hi - position lo.
Proof.
  apply (same_floor_travel_time_is_span
           [mkRoom 307 3 7 AVAILABLE; mkRoom 302 3 2 AVAILABLE;
            mkRoom 305 3 5 AVAILABLE] 3).
  - discriminate.
  - repeat constructor.
Defined.

(** ** The combination generator *)

Lemma subseq_In_list {A : Type} (c l : list A) (x : A) :
  subseq c l -> In x c -> In x l.
Proof.
  induction 1 as [| y c l _ IH | y c l _ IH]; simpl; intuition.
Qed.

Lemma NoDup_map_cons {A : Type} (x : A) (L : list (list A)) :
  NoDup L -> NoDup (map (cons x) L).
Proof.
  induction 1 as [| c L Hc _ IH]; simpl; constructor; [| exact IH].
  intros Hin. apply in_map_iff in Hin as (c' & Heq & Hin).
  injection Heq as ->. contradiction.
Qed.

Lemma spec_combinations_NoDup {A : Type} (l : list A) :
  NoDup l -> forall k, NoDup (spec_combinations l k).
Proof.
  induction 1 as [| x l Hx _ IH]; intros [| k]; simpl;
    try (repeat constructor; now intros []).
  apply NoDup_app.
  - apply NoDup_map_cons, IH.
  - apply IH.
  - intros c Hc Hc'. apply in_map_iff in Hc as (c0 & <- & _).
    apply spec_combinations_In in Hc' as [Hs _].
    apply Hx. apply (subseq_In_list _ _ x Hs). now left.
Qed.

Lemma spec_combinations_count {A : Type} (l : list A) :
  forall k, len (spec_combinations l k) = choose (List.length l) k.
Proof.
  induction l as [| x l IH]; intros [| k]; try reflexivity.
  cbn [spec_combinations List.length choose].
  unfold len in *. rewrite length_app, length_map, Nat2Z.inj_add.
  now rewrite IH, IH.
Qed.

(** X5. Called with a size of at least 1, [generateCombinations] returns,
    and what it returns lists exactly the selections of that many rooms
    that keep the order of the input; when the input has no repeated room
    no selection is listed twice. *)
Theorem generateCombinations_complete (rs : list Room) (size : Z) :
  1 <= size ->
  exists combinations,
    generateCombinations rs size = Some combinations /\
    (forall c, In c combinations <-> subseq c rs /\ len c = size) /\
    (NoDup rs -> NoDup combinations).
Proof.
  intros Hsize. exists (spec_combinations rs (Z.to_nat size)).
  split; [now apply generateCombinations_refines |]. split.
  - intros c. rewrite spec_combinations_In. unfold len. split; intros [Hs Hl];
      (split; [exact Hs | lia]).
  - intros Hnd. now apply spec_combinations_NoDup.
Qed.

Lemma generateCombinations_complete_witness :
  exists combinations,
    generateCombinations (firstn 4 initializeRooms) 2 = Some combinations /\
    (forall c, In c combinations <->
               subseq c (firstn 4 initializeRooms) /\ len c = 2) /\
    (NoDup (firstn 4 initializeRooms) -> NoDup combinations).
Proof.
  apply (generateCombinations_complete (firstn 4 initializeRooms) 2). lia.
Defined.

(** X6. The number of combinations [generateCombinations] returns for a
    size of at least 1 is the binomial coefficient of the number of rooms
    and the size. *)
Theorem generateCombinations_count (rs : list Room) (size : Z) :
  1 <= size ->
  exists combinations,
    generateCombinations rs size = Some combinations /\
    len combinations = choose (List.length rs) (Z.to_nat size).
Proof.
  intros Hsize. exists (spec_combinations rs (Z.to_nat size)).
  split; [now apply generateCombinations_refines | apply spec_combinations_count].
Qed.

Lemma generateCombinations_count_witness :
  exists combinations,
    generateCombinations (firstn 6 initializeRooms) 3 = Some combinations /\
    len combinations = 20.
Proof.
  apply (generateCombinations_count (firstn 6 initializeRooms) 3). lia.
Defined.

(** X7. Called with a size of 0 or less, [generateCombinations] never
    returns: whatever depth the call stack is allowed, the recursion is
    still descending when it is used up. *)
Theorem generateCombinations_unbounded_recursion
        (depth : nat) (rs : list Room) (size : Z) :
  size <= 0 -> generateCombinations_depth depth rs size = None.
Proof. apply generateCombinations_diverges. Qed.

Lemma generateCombinations_unbounded_recursion_witness :
  generateCombinations_depth 1000 initializeRooms 0 = None.
Proof.
  apply (generateCombinations_unbounded_recursion 1000 initializeRooms 0). lia.
Defined.

(** ** The allocator as a whole *)

(** X8. [findOptimalRooms] returns a result for every inventory and every
    requested count: the generator is only ever called with a size of at
    least 1. *)
Theorem findOptimalRooms_always_returns (inv : list Room) (numRooms : Z) :
  exists result, findOptimalRooms inv numRooms = Some result.
Proof. apply findOptimalRooms_total. Qed.

Lemma booked_message_differs (numRooms : Z) (tail : string) :
  ("Booked " ++ show numRooms ++ tail)%string
  <> "Unable to find optimal room combination"%string.
Proof. simpl. discriminate. Qed.

Lemma findOptimalRooms_success_iff_aux (inv : list Room) (numRooms : Z)
      (result : BookingResult) :
  findOptimalRooms inv numRooms = Some result ->
  (success result = true <->
   numRooms <= MAX_ROOMS_PER_BOOKING /\ numRooms <= len (availableRooms inv)) /\
  message result <> "Unable to find optimal room combination"%string.
Proof.
  unfold findOptimalRooms. fold (availableRooms inv).
  destruct (Z.gtb_spec numRooms MAX_ROOMS_PER_BOOKING) as [Hgt | Hcap].
  { intros [= <-]. cbn [success message]. split; [| simpl; discriminate].
    split; [discriminate | lia]. }
  destruct (Z.ltb_spec (len (availableRooms inv)) numRooms) as [Hlt | Hge].
  { intros [= <-]. cbn [success message]. split; [| simpl; discriminate].
    split; [discriminate | lia]. }
  destruct (sameFloorSearch inv numRooms floorRange) as [r |] eqn:Hs.
  - intros Hr. apply Some_inj in Hr. subst r.
    apply sameFloorSearch_some in Hs as (fl & _ & _ & ->).
    unfold sameFloorResult. cbn [success message].
    split; [tauto | apply booked_message_differs].
  - apply sameFloorSearch_none_positive in Hs.
    rewrite (generateCombinations_refines _ _ Hs). cbn [bind].
    assert (Hdone : forall best t,
              len best = numRooms ->
              (success (finish numRooms (best, t)) = true <->
               numRooms <= MAX_ROOMS_PER_BOOKING /\
               numRooms <= len (availableRooms inv)) /\
              message (finish numRooms (best, t))
              <> "Unable to find optimal room combination"%string).
    { intros best t Hlen. rewrite finish_success by exact Hlen.
      cbn [success message]. split; [tauto | apply booked_message_differs]. }
    destruct ((numRooms <=? 3) || (len (availableRooms inv) <=? 20)).
    + destruct (considerCombination_best
                  (spec_combinations (availableRooms inv) (Z.to_nat numRooms)))
        as (best & earlier & later & Hfold & Hsplit & _).
      { apply spec_combinations_nonempty. unfold len in Hge. lia. }
      rewrite Hfold. intros Hr. apply Some_inj in Hr. subst result.
      apply Hdone.
      assert (Hin : In best (spec_combinations (availableRooms inv)
                               (Z.to_nat numRooms)))
        by (rewrite Hsplit; apply in_or_app; right; now left).
      apply spec_combinations_In in Hin as [_ Hlen]. unfold len. lia.
    + intros Hr. apply Some_inj in Hr. subst result. apply Hdone.
      apply slice0_len. rewrite sort_len. lia.
Qed.

(** X9. A request succeeds exactly when it asks for at most 5 rooms and
    for no more rooms than are available; the result "Unable to find
    optimal room combination" is never returned. *)
Theorem findOptimalRooms_success_iff (inv : list Room) (numRooms : Z)
        (result : BookingResult) :
  findOptimalRooms inv numRooms = Some result ->
  (success result = true <->
   numRooms <= MAX_ROOMS_PER_BOOKING /\ numRooms <= len (availableRooms inv)) /\
  message result <> "Unable to find optimal room combination"%string.
Proof. apply findOptimalRooms_success_iff_aux. Qed.

Lemma findOptimalRooms_success_iff_witness :
  let inv := inventoryWith
               (fun n => if (n =? 110) || (n =? 201) || (n =? 305)
                         then AVAILABLE else OCCUPIED) in
  let result := mkResult [mkRoom 110 1 10 AVAILABLE; mkRoom 201 2 1 AVAILABLE]
                  (Finite 2) true "Booked 2 rooms across multiple floors" in
  (success result = true <->
   2 <= MAX_ROOMS_PER_BOOKING /\ 2 <= len (availableRooms inv)) /\
  message result <> "Unable to find optimal room combination"%string.
Proof.
  intros inv result.
  apply (findOptimalRooms_success_iff inv 2 result).
  vm_compute. reflexivity.
Defined.

Lemma getAvailableRoomsOnFloor_available (inv : list Room) (fl : Z) :
  getAvailableRoomsOnFloor inv fl
  = sort byPosition (filter (fun room => floor room =? fl) (availableRooms inv)).
Proof.
  unfold getAvailableRoomsOnFloor. now rewrite filter_floor_available.
Qed.

Lemma sameFloorSearch_available (inv1 inv2 : list Room) (numRooms : Z)
      (floors : list Z) :
  availableRooms inv1 = availableRooms inv2 ->
  sameFloorSearch inv1 numRooms floors = sameFloorSearch inv2 numRooms floors.
Proof.
  intros Heq. induction floors as [| fl floors IH]; [reflexivity |].
  cbn [sameFloorSearch].
  rewrite !getAvailableRoomsOnFloor_available, Heq, IH. reflexivity.
Qed.

(** X10. The allocator looks at nothing but the available rooms: two
    inventories with the same available rooms, in the same order, get the
    same result, whether the other rooms are Occupied or Selected. *)
Theorem findOptimalRooms_reads_available_only
        (inv1 inv2 : list Room) (numRooms : Z) :
  availableRooms inv1 = availableRooms inv2 ->
  findOptimalRooms inv1 numRooms = findOptimalRooms inv2 numRooms.
Proof.
  intros Heq. unfold findOptimalRooms. fold (availableRooms inv1).
  fold (availableRooms inv2).
  rewrite (sameFloorSearch_available inv1 inv2 numRooms floorRange Heq), Heq.
  reflexivity.
Qed.

Lemma findOptimalRooms_reads_available_only_witness :
  findOptimalRooms
    (inventoryWith (fun n => if n mod 100 <? 3 then AVAILABLE else OCCUPIED)) 3
  = findOptimalRooms
      (inventoryWith (fun n => if n mod 100 <? 3 then AVAILABLE else SELECTED)) 3.
Proof.
  apply (findOptimalRooms_reads_available_only
           (inventoryWith (fun n => if n mod 100 <? 3 then AVAILABLE else OCCUPIED))
           (inventoryWith (fun n => if n mod 100 <? 3 then AVAILABLE else SELECTED))
           3).
  vm_compute. reflexivity.
Defined.



Lemma choose_nonneg (n k : nat) : 0 <= choose n k.
Proof.
  revert k. induction n as [| n IH]; intros [| k]; simpl; try lia.
  pose proof (IH k). pose proof (IH (S k)). lia.
Qed.

Lemma choose_le (n m k : nat) : (m <= n)%nat -> choose m k <= choose n k.
Proof.
  induction 1 as [| n _ IH]; [lia |].
  destruct k as [| k]; [destruct n, m; simpl; lia |].
  cbn [choose]. pose proof (choose_nonneg n k). lia.
Qed.

Lemma availableRooms_length (inv : list Room) :
  (List.length (availableRooms inv) <= List.length inv)%nat.
Proof.
  unfold availableRooms. induction inv as [| room inv IH]; simpl; [lia |].
  destruct (isAvailable room); simpl; lia.
Qed.

(** X12. On the building's inventory the exhaustive search never has more
    than 147,440 combinations to evaluate for a request of up to 3 rooms,
    and never more than 15,504 for a request of 4 or 5 rooms, which is
    only searched exhaustively when at most 20 rooms are available. *)
Theorem exhaustive_search_size_bounded (inv : list Room) (numRooms : Z) :
  is_inventory inv ->
  1 <= numRooms <= MAX_ROOMS_PER_BOOKING ->
  numRooms <= 3 \/ len (availableRooms inv) <= 20 ->
  exists combinations,
    generateCombinations (availableRooms inv) numRooms = Some combinations /\
    len combinations <= (if numRooms <=? 3 then 147440 else 15504).
Proof.
  intros Hinv [H1 Hcap] Hguard. unfold MAX_ROOMS_PER_BOOKING in Hcap.
  exists (spec_combinations (availableRooms inv) (Z.to_nat numRooms)).
  split; [now apply generateCombinations_refines |].
  rewrite spec_combinations_count.
  pose proof (availableRooms_length inv) as Hlen.
  rewrite (inventory_length inv Hinv) in Hlen.
  destruct (Z.leb_spec numRooms 3) as [H3 | H3].
  - eapply Z.le_trans; [apply (choose_le 97), Hlen |].
    assert (Hc : numRooms = 1 \/ numRooms = 2 \/ numRooms = 3) by lia.
    destruct Hc as [-> | [-> | ->]]; vm_compute; discriminate.
  - destruct Hguard as [Hg | Hg]; [lia |].
    eapply Z.le_trans; [apply (choose_le 20); unfold len in Hg; lia |].
    assert (Hc : numRooms = 4 \/ numRooms = 5) by lia.
    destruct Hc as [-> | ->]; vm_compute; discriminate.
Qed.

Lemma exhaustive_search_size_bounded_witness :
  let inv := inventoryWith
               (fun n => if (n =? 110) || (n =? 201) || (n =? 305)
                         then AVAILABLE else OCCUPIED) in
  exists combinations,
    generateCombinations (availableRooms inv) 2 = Some combinations /\
    len combinations <= 147440.
Proof.
  intros inv. apply (exhaustive_search_size_bounded inv 2).
  - apply inventoryWith_is_inventory.
  - vm_compute. split; congruence.
  - left. lia.
Defined.

(** ** The header counters *)

Lemma counts_sum (rs : list Room) :
  availableRoomCount rs + occupiedRoomCount rs + selectedRoomCount rs = len rs.
Proof.
  unfold availableRoomCount, occupiedRoomCount, selectedRoomCount.
  induction rs as [| room rs IH]; [reflexivity |].
  cbn [filter]. destruct (status room); cbn [RoomStatus_eqb];
    rewrite !len_cons; lia.
Qed.

(** X13. In every state the page can reach, the three counters of the
    header add up to the 97 rooms of the building. *)
Theorem header_counts_sum_to_97 (s : PageState) :
  reachable s ->
  availableRoomCount (st_rooms s) + occupiedRoomCount (st_rooms s)
  + selectedRoomCount (st_rooms s) = 97.
Proof.
  intros Hr. rewrite counts_sum. unfold len.
  now rewrite (inventory_length _ (reachable_is_inventory s Hr)).
Qed.

Lemma header_counts_sum_to_97_witness :
  availableRoomCount (st_rooms (generateRandomOccupancy Nat.even initialState))
  + occupiedRoomCount (st_rooms (generateRandomOccupancy Nat.even initialState))
  + selectedRoomCount (st_rooms (generateRandomOccupancy Nat.even initialState))
  = 97.
Proof.
  apply (header_counts_sum_to_97 (generateRandomOccupancy Nat.even initialState)).
  apply reach_random, reach_init.
Defined.

(** ** Booking against the inventory *)

Lemma NoDup_map_eq {A B : Type} (f : A -> B) (l : list A) (x y : A) :
  NoDup (map f l) -> In x l -> In y l -> f x = f y -> x = y.
Proof.
  induction l as [| z l IH]; simpl; [intros _ [] |].
  intros Hnd Hx Hy Hf. inversion Hnd as [| ? ? Hnot Hnd']; subst.
  destruct Hx as [-> | Hx], Hy as [-> | Hy].
  - reflexivity.
  - exfalso. apply Hnot. rewrite Hf. now apply in_map.
  - exfalso. apply Hnot. rewrite <- Hf. now apply in_map.
  - now apply IH.
Qed.

Lemma isSelectedIn_spec (result : BookingResult) (room : Room) :
  isSelectedIn result room = true <->
  exists x, In x (rooms result) /\ number x = number room.
Proof.
  unfold isSelectedIn. rewrite existsb_exists.
  split; intros (x & Hx & Hn); exists x; (split; [exact Hx |]);
    now apply Z.eqb_eq.
Qed.

Lemma result_rooms_available (inv : list Room) (numRooms : Z)
      (result : BookingResult) (x : Room) :
  findOptimalRooms inv numRooms = Some result ->
  In x (rooms result) -> In x inv /\ status x = AVAILABLE.
Proof.
  intros Hres Hx.
  destruct (findOptimalRooms_selects_available inv numRooms result Hres)
    as [rest Hperm].
  assert (Ha : In x (availableRooms inv)).
  { eapply Permutation_in; [exact Hperm |]. apply in_or_app. now left. }
  apply filter_In in Ha as [Hinv Hav]. split; [exact Hinv |].
  now apply isAvailable_true.
Qed.

(** With unique room numbers, only available rooms carry a selected
    number. *)
Lemma selected_number_available (inv : list Room) (numRooms : Z)
      (result : BookingResult) (room : Room) :
  NoDup (map number inv) ->
  findOptimalRooms inv numRooms = Some result ->
  In room inv -> isSelectedIn result room = true -> status room = AVAILABLE.
Proof.
  intros Hnd Hres Hin Hsel.
  apply isSelectedIn_spec in Hsel as (x & Hx & Hn).
  destruct (result_rooms_available inv numRooms result x Hres Hx) as [Hxin Hxa].
  now rewrite <- (NoDup_map_eq number inv x room Hnd Hxin Hin Hn).
Qed.

Lemma markSelected_eq (result : BookingResult) (inv : list Room) :
  markSelected result inv
  = map (fun room => if isSelectedIn result room
                     then withStatus room SELECTED else room) inv.
Proof. reflexivity. Qed.

Lemma markSelected_counts (result : BookingResult) (l : list Room) :
  Forall (fun room => isSelectedIn result room = true ->
                      status room = AVAILABLE) l ->
  availableRoomCount (markSelected result l)
  = availableRoomCount l - len (filter (isSelectedIn result) l) /\
  selectedRoomCount (markSelected result l)
  = selectedRoomCount l + len (filter (isSelectedIn result) l) /\
  occupiedRoomCount (markSelected result l) = occupiedRoomCount l.
Proof.
  rewrite markSelected_eq.
  unfold availableRoomCount, selectedRoomCount, occupiedRoomCount.
  induction 1 as [| room l Hroom _ IH]; [repeat split |].
  destruct IH as (IHa & IHs & IHo).
  cbn [map filter].
  destruct (isSelectedIn result room) eqn:Hsel.
  - rewrite (Hroom eq_refl). cbn [withStatus status RoomStatus_eqb].
    rewrite !len_cons, IHa, IHs, IHo. repeat split; lia.
  - destruct (status room); cbn [RoomStatus_eqb];
      rewrite ?len_cons, IHa, IHs, IHo; repeat split; lia.
Qed.

Lemma Permutation_filter_len {A : Type} (f : A -> bool) (l1 l2 : list A) :
  Permutation l1 l2 -> len (filter f l1) = len (filter f l2).
Proof.
  induction 1 as [| x l1 l2 _ IH | x y l | l1 l2 l3 _ IH1 _ IH2].
  - reflexivity.
  - cbn [filter]. destruct (f x); rewrite ?len_cons; lia.
  - cbn [filter]. destruct (f x), (f y); rewrite ?len_cons; lia.
  - lia.
Qed.

Lemma filter_selected_available (result : BookingResult) (l : list Room) :
  Forall (fun room => isSelectedIn result room = true ->
                      status room = AVAILABLE) l ->
  filter (isSelectedIn result) l
  = filter (isSelectedIn result) (availableRooms l).
Proof.
  unfold availableRooms.
  induction 1 as [| room l Hroom _ IH]; [reflexivity |].
  cbn [filter]. destruct (isSelectedIn result room) eqn:Hsel.
  - unfold isAvailable at 1. rewrite (Hroom eq_refl). cbn [RoomStatus_eqb filter].
    rewrite Hsel. now rewrite IH.
  - destruct (isAvailable room); cbn [filter]; rewrite ?Hsel; exact IH.
Qed.

(** The rooms of the inventory that carry a selected number are as many as
    the rooms of the result. *)
Lemma selected_count (inv : list Room) (numRooms : Z) (result : BookingResult) :
  NoDup (map number inv) ->
  findOptimalRooms inv numRooms = Some result ->
  len (filter (isSelectedIn result) inv) = len (rooms result).
Proof.
  intros Hnd Hres.
  rewrite filter_selected_available.
  2:{ apply Forall_forall. intros room Hin.
      now apply (selected_number_available inv numRooms). }
  destruct (findOptimalRooms_selects_available inv numRooms result Hres)
    as [rest Hperm].
  rewrite <- (Permutation_filter_len _ _ _ Hperm), filter_app.
  assert (Hnd' : NoDup (map number (rooms result ++ rest))).
  { eapply Permutation_NoDup;
      [apply Permutation_map, Permutation_sym, Hperm |].
    now apply NoDup_map_filter. }
  assert (Hin : filter (isSelectedIn result) (rooms result) = rooms result).
  { apply forallb_filter_id, forallb_forall. intros x Hx.
    apply isSelectedIn_spec. now exists x. }
  assert (Hout : filter (isSelectedIn result) rest = []).
  { destruct (filter (isSelectedIn result) rest) as [| z zs] eqn:Hz;
      [reflexivity | exfalso].
    assert (Hzin : In z (filter (isSelectedIn result) rest))
      by (rewrite Hz; now left).
    apply filter_In in Hzin as [Hzrest Hzsel].
    apply isSelectedIn_spec in Hzsel as (x & Hx & Hn).
    rewrite map_app in Hnd'. clear - Hnd' Hx Hzrest Hn.
    induction (rooms result) as [| y ys IH]; [destruct Hx |].
    simpl in Hnd'. inversion Hnd' as [| ? ? Hnot Hnd'']; subst.
    destruct Hx as [-> | Hx]; [| now apply IH].
    apply Hnot, in_or_app. right. rewrite Hn. now apply in_map. }
  rewrite Hin, Hout, app_nil_r. reflexivity.
Qed.

(** X14. Committing a successful booking on an inventory with unique room
    numbers moves exactly the booked rooms from Available to Selected: the
    available counter drops by the number of rooms in the result, the
    selected counter rises by as much and the occupied counter stays. *)
Theorem booking_moves_rooms_to_selected (inv : list Room) (numRooms : Z)
        (result : BookingResult) :
  NoDup (map number inv) ->
  findOptimalRooms inv numRooms = Some result ->
  success result = true ->
  availableRoomCount (commitBooking inv result)
  = availableRoomCount inv - len (rooms result) /\
  selectedRoomCount (commitBooking inv result)
  = selectedRoomCount inv + len (rooms result) /\
  occupiedRoomCount (commitBooking inv result) = occupiedRoomCount inv.
Proof.
  intros Hnd Hres Hsucc. unfold commitBooking. rewrite Hsucc.
  rewrite <- (selected_count inv numRooms result Hnd Hres).
  apply markSelected_counts, Forall_forall. intros room Hin.
  now apply (selected_number_available inv numRooms).
Qed.

Lemma booking_moves_rooms_to_selected_witness :
  let inv := inventoryWith
               (fun n => if (n =? 110) || (n =? 201) || (n =? 305)
                         then AVAILABLE else OCCUPIED) in
  let result := mkResult [mkRoom 110 1 10 AVAILABLE; mkRoom 201 2 1 AVAILABLE]
                  (Finite 2) true "Booked 2 rooms across multiple floors" in
  availableRoomCount (commitBooking inv result)
  = availableRoomCount inv - len (rooms result) /\
  selectedRoomCount (commitBooking inv result)
  = selectedRoomCount inv + len (rooms result) /\
  occupiedRoomCount (commitBooking inv result) = occupiedRoomCount inv.
Proof.
  intros inv result.
  apply (booking_moves_rooms_to_selected inv 2 result).
  - apply inventory_numbers_unique, inventoryWith_is_inventory.
  - vm_compute. reflexivity.
  - reflexivity.
Defined.

Lemma commitBooking_In (inv : list Room) (result : BookingResult) (y : Room) :
  success result = true ->
  In y (commitBooking inv result) ->
  exists room,
    In room inv /\
    y = (if isSelectedIn result room then withStatus room SELECTED else room).
Proof.
  intros Hs Hy. unfold commitBooking in Hy. rewrite Hs, markSelected_eq in Hy.
  apply in_map_iff in Hy as (room & <- & Hin). now exists room.
Qed.

(** X15. Two consecutive bookings never hand out the same room: whatever
    is typed into the count field in between, no room number of the first
    result occurs in the second. *)
Theorem no_double_booking (s s1 s2 : PageState) (parsed : option Z)
        (r1 r2 : BookingResult) :
  bookRooms s = Some s1 ->
  bookRooms (setRequestedRooms parsed s1) = Some s2 ->
  lastBooking s1 = Some r1 ->
  lastBooking s2 = Some r2 ->
  forall x y, In x (rooms r1) -> In y (rooms r2) -> number x <> number y.
Proof.
  unfold bookRooms. intros H1 H2 Hr1 Hr2 x y Hx Hy Hn.
  destruct (findOptimalRooms (st_rooms s) (requestedRooms s)) as [a |] eqn:Ha;
    [| discriminate].
  cbn [bind] in H1. apply Some_inj in H1. subst s1.
  cbn [lastBooking] in Hr1. apply Some_inj in Hr1. subst a.
  cbn [setRequestedRooms st_rooms requestedRooms] in H2.
  destruct (findOptimalRooms (commitBooking (st_rooms s) r1) (parsedOrOne parsed))
    as [b |] eqn:Hb; [| discriminate].
  cbn [bind] in H2. apply Some_inj in H2. subst s2.
  cbn [lastBooking] in Hr2. apply Some_inj in Hr2. subst b.
  destruct (result_rooms_available _ _ _ y Hb Hy) as [Hyin Hya].
  destruct (success r1) eqn:Hs1.
  - apply (commitBooking_In _ _ _ Hs1) in Hyin as (room & Hroom & ->).
    destruct (isSelectedIn r1 room) eqn:Hsel; [discriminate Hya |].
    assert (Hsel' : isSelectedIn r1 room = true)
      by (apply isSelectedIn_spec; now exists x).
    congruence.
  - destruct (findOptimalRooms_postcondition _ _ _ Ha) as [Hfail _].
    destruct (Hfail Hs1) as [Hnil _]. rewrite Hnil in Hx. destruct Hx.
Qed.

Lemma no_double_booking_witness :
  number (mkRoom 102 1 2 AVAILABLE) <> number (mkRoom 103 1 3 AVAILABLE).
Proof.
  set (r1 := mkResult [mkRoom 101 1 1 AVAILABLE; mkRoom 102 1 2 AVAILABLE]
               (Finite 1) true "Booked 2 rooms on Floor 1").
  set (r2 := mkResult [mkRoom 103 1 3 AVAILABLE; mkRoom 104 1 4 AVAILABLE;
                       mkRoom 105 1 5 AVAILABLE]
               (Finite 2) true "Booked 3 rooms on Floor 1").
  set (s := mkState initializeRooms 2 None).
  set (s1 := mkState (commitBooking initializeRooms r1) 2 (Some r1)).
  set (s2 := mkState (commitBooking (commitBooking initializeRooms r1) r2) 3
               (Some r2)).
  apply (no_double_booking s s1 s2 (Some 3) r1 r2);
    try (vm_compute; reflexivity).
  - right. left. reflexivity.
  - left. reflexivity.
Defined.

(** X16. A booking never touches a room that is not Available: on an
    inventory with unique room numbers every Occupied or Selected room is
    the same after the commit as before. *)
Theorem booking_keeps_taken_rooms (inv : list Room) (numRooms : Z)
        (result : BookingResult) (i : nat) (room : Room) :
  NoDup (map number inv) ->
  findOptimalRooms inv numRooms = Some result ->
  nth_error inv i = Some room ->
  status room <> AVAILABLE ->
  nth_error (commitBooking inv result) i = Some room.
Proof.
  intros Hnd Hres Hi Hst. unfold commitBooking.
  destruct (success result); [| exact Hi].
  rewrite markSelected_eq, nth_error_map, Hi. cbn [option_map].
  destruct (isSelectedIn result room) eqn:Hsel; [| reflexivity].
  exfalso. apply Hst.
  apply (selected_number_available inv numRooms result room Hnd Hres);
    [eapply nth_error_In; exact Hi | exact Hsel].
Qed.

Lemma booking_keeps_taken_rooms_witness :
  let inv := inventoryWith
               (fun n => if (n =? 110) || (n =? 201) || (n =? 305)
                         then AVAILABLE else OCCUPIED) in
  let result := mkResult [mkRoom 110 1 10 AVAILABLE; mkRoom 201 2 1 AVAILABLE]
                  (Finite 2) true "Booked 2 rooms across multiple floors" in
  nth_error (commitBooking inv result) 0 = Some (mkRoom 101 1 1 OCCUPIED).
Proof.
  intros inv result.
  apply (booking_keeps_taken_rooms inv 2 result 0 (mkRoom 101 1 1 OCCUPIED)).
  - apply inventory_numbers_unique, inventoryWith_is_inventory.
  - vm_compute. reflexivity.
  - reflexivity.
  - discriminate.
Defined.

(** ** What every reachable state satisfies *)

Lemma wellPlacedb_sound (room : Room) :
  wellPlacedb (topology room) = true -> wellPlaced room.
Proof.
  unfold wellPlacedb, topology, wellPlaced.
  rewrite !andb_true_iff, !Z.leb_le, Z.eqb_eq. tauto.
Qed.

Lemma inventory_wellPlaced (inv : list Room) :
  is_inventory inv -> Forall wellPlaced inv.
Proof.
  intros H.
  assert (Hall : forallb wellPlacedb (map topology inv) = true)
    by (rewrite H; vm_compute; reflexivity).
  rewrite forallb_forall in Hall. apply Forall_forall. intros room Hin.
  apply wellPlacedb_sound, Hall, in_map, Hin.
Qed.

(** X17. Through every sequence of typing a count, booking, randomizing
    and resetting, the page keeps the building intact: 97 rooms with
    pairwise distinct numbers, each on a floor from 1 to 10, at a position
    that floor has, numbered after its floor and position. *)
Theorem reachable_keeps_building (s : PageState) :
  reachable s ->
  List.length (st_rooms s) = 97%nat /\
  NoDup (map number (st_rooms s)) /\
  Forall wellPlaced (st_rooms s) /\
  map topology (st_rooms s) = map topology initializeRooms.
Proof.
  intros Hr. pose proof (reachable_is_inventory s Hr) as Hinv.
  split; [now apply inventory_length |].
  split; [now apply inventory_numbers_unique |].
  split; [now apply inventory_wellPlaced | exact Hinv].
Qed.

Lemma reachable_keeps_building_witness :
  let s := resetBookings (generateRandomOccupancy Nat.odd initialState) in
  List.length (st_rooms s) = 97%nat /\
  NoDup (map number (st_rooms s)) /\
  Forall wellPlaced (st_rooms s) /\
  map topology (st_rooms s) = map topology initializeRooms.
Proof.
  intros s. apply (reachable_keeps_building s).
  apply reach_reset, reach_random, reach_init.
Defined.

(** X18. The count the page hands to the allocator is never 0: an empty
    or zero entry in the field is replaced by 1. *)
Theorem reachable_request_nonzero (s : PageState) :
  reachable s -> requestedRooms s <> 0.
Proof.
  induction 1 as [| s parsed _ IH | s s' _ IH Hbook | s draws _ IH | s _ IH];
    try exact IH.
  - discriminate.
  - apply parsedOrOne_nonzero.
  - unfold bookRooms in Hbook.
    destruct (findOptimalRooms (st_rooms s) (requestedRooms s)); [| discriminate].
    cbn [bind] in Hbook. apply Some_inj in Hbook. now subst s'.
Qed.

Lemma reachable_request_nonzero_witness :
  requestedRooms (setRequestedRooms (Some 0) initialState) <> 0.
Proof.
  apply (reachable_request_nonzero (setRequestedRooms (Some 0) initialState)).
  apply reach_count, reach_init.
Defined.

(** X19. Whenever the page shows a last booking, every room of that
    booking is Selected in the inventory the page holds: randomizing and
    resetting, which overwrite the statuses, also clear the last booking. *)
Theorem last_booking_rooms_selected (s : PageState) (result : BookingResult) :
  reachable s ->
  lastBooking s = Some result ->
  forall x, In x (rooms result) ->
    exists room,
      In room (st_rooms s) /\ number room = number x /\
      status room = SELECTED.
Proof.
  intros Hr. revert result.
  induction Hr as [| s parsed _ IH | s s' _ IH Hbook | s draws _ IH | s _ IH];
    intros result Hlast x Hx; try discriminate.
  - exact (IH result Hlast x Hx).
  - unfold bookRooms in Hbook.
    destruct (findOptimalRooms (st_rooms s) (requestedRooms s)) as [r |] eqn:Hres;
      [| discriminate].
    cbn [bind] in Hbook. apply Some_inj in Hbook. subst s'.
    cbn [lastBooking] in Hlast. apply Some_inj in Hlast. subst r.
    cbn [st_rooms].
    destruct (result_rooms_available _ _ _ x Hres Hx) as [Hxin _].
    destruct (success result) eqn:Hs.
    + exists (withStatus x SELECTED). split; [| split; reflexivity].
      unfold commitBooking. rewrite Hs, markSelected_eq.
      apply in_map_iff. exists x. split; [| exact Hxin].
      assert (Hsel : isSelectedIn result x = true)
        by (apply isSelectedIn_spec; now exists x).
      now rewrite Hsel.
    + destruct (findOptimalRooms_postcondition _ _ _ Hres) as [Hfail _].
      destruct (Hfail Hs) as [Hnil _]. rewrite Hnil in Hx. destruct Hx.
Qed.

Lemma last_booking_rooms_selected_witness :
  exists room,
    In room (commitBooking initializeRooms
               (mkResult [mkRoom 101 1 1 AVAILABLE; mkRoom 102 1 2 AVAILABLE]
                  (Finite 1) true "Booked 2 rooms on Floor 1")) /\
    number room = number (mkRoom 102 1 2 AVAILABLE) /\
    status room = SELECTED.
Proof.
  set (r := mkResult [mkRoom 101 1 1 AVAILABLE; mkRoom 102 1 2 AVAILABLE]
              (Finite 1) true "Booked 2 rooms on Floor 1").
  apply (last_booking_rooms_selected
           (mkState (commitBooking initializeRooms r) 2 (Some r)) r).
  - apply (reach_book (setRequestedRooms (Some 2) initialState)).
    + apply reach_count, reach_init.
    + vm_compute. reflexivity.
  - reflexivity.
  - right. left. reflexivity.
Defined.

Lemma randomize_overwrites (draws : nat -> bool) (inv1 : list Room) :
  forall (inv2 : list Room) (i : nat),
    map topology inv1 = map topology inv2 ->
    randomize draws i inv1 = randomize draws i inv2.
Proof.
  induction inv1 as [| a inv1 IH]; intros [| b inv2] i H; try discriminate.
  - reflexivity.
  - cbn [map] in H. injection H as Hn Hf Hp Htl.
    cbn [randomize]. unfold withStatus.
    rewrite Hn, Hf, Hp, (IH inv2 (S i) Htl). reflexivity.
Qed.

(** X20. Randomizing forgets the history: from any two reachable states
    the same draws produce the same inventory, so no earlier booking or
    occupancy shows through. *)
Theorem randomize_forgets_history (s1 s2 : PageState) (draws : nat -> bool) :
  reachable s1 -> reachable s2 ->
  st_rooms (generateRandomOccupancy draws s1)
  = st_rooms (generateRandomOccupancy draws s2).
Proof.
  intros H1 H2. cbn [generateRandomOccupancy st_rooms].
  apply randomize_overwrites.
  rewrite (reachable_is_inventory s1 H1). symmetry.
  apply (reachable_is_inventory s2 H2).
Qed.

Lemma randomize_forgets_history_witness :
  st_rooms (generateRandomOccupancy Nat.even initialState)
  = st_rooms (generateRandomOccupancy Nat.even
                (generateRandomOccupancy Nat.odd initialState)).
Proof.
  apply (randomize_forgets_history initialState
           (generateRandomOccupancy Nat.odd initialState) Nat.even).
  - apply reach_init.
  - apply reach_random, reach_init.
Defined.

(** ** Bounds on the travel time of a booking *)

Lemma pathTime_floor_spread (s : list Room) :
  forall a,
    StronglySorted floorPositionLe (a :: s) ->
    2 * (floor (last s a) - floor a) <= pathTime (a :: s).
Proof.
  induction s as [| b s IH]; intros a Hs.
  - cbn [last pathTime]. lia.
  - change (pathTime (a :: b :: s))
      with (calculateTravelTime a b + pathTime (b :: s)).
    rewrite last_cons_cons.
    inversion Hs as [| ? ? Hs' Hall]; subst.
    inversion Hall as [| ? ? Hab _]; subst. unfold floorPositionLe in Hab.
    specialize (IH b Hs').
    unfold calculateTravelTime.
    destruct (Z.eqb_spec (floor a) (floor b)); lia.
Qed.

Lemma sorted_floor_bounds (s : list Room) :
  forall a r,
    StronglySorted floorPositionLe (a :: s) ->
    In r (a :: s) -> floor a <= floor r <= floor (last s a).
Proof.
  induction s as [| b s IH]; intros a r Hs Hin.
  - destruct Hin as [<- | []]. cbn [last]. lia.
  - rewrite last_cons_cons.
    inversion Hs as [| ? ? Hs' Hall]; subst.
    inversion Hall as [| ? ? Hab _]; subst.
    assert (Hfab : floor a <= floor b) by (unfold floorPositionLe in Hab; lia).
    destruct Hin as [<- | Hin].
    + pose proof (IH b b Hs' (or_introl eq_refl)). lia.
    + pose proof (IH b r Hs' Hin). lia.
Qed.

Lemma floor_spread_bound (l : list Room) (a b : Room) :
  In a l -> In b l ->
  2 * (floor b - floor a) <= calculateTotalTravelTime l.
Proof.
  intros Ha Hb.
  pose proof (sort_byFloorThenPosition_sorted l) as Hs.
  pose proof (sort_perm byFloorThenPosition l) as Hp.
  unfold calculateTotalTravelTime.
  destruct (Z.leb_spec (len l) 1) as [Hshort | _].
  - destruct l as [| x [| y l]].
    + destruct Ha.
    + destruct Ha as [<- | []], Hb as [<- | []]. lia.
    + rewrite !len_cons in Hshort. pose proof (len_nonneg l). lia.
  - destruct (sort byFloorThenPosition l) as [| h s] eqn:Hsort.
    { apply Permutation_nil in Hp. subst l. destruct Ha. }
    assert (Ha' : In a (h :: s))
      by (eapply Permutation_in; [apply Permutation_sym, Hp | exact Ha]).
    assert (Hb' : In b (h :: s))
      by (eapply Permutation_in; [apply Permutation_sym, Hp | exact Hb]).
    pose proof (sorted_floor_bounds s h a Hs Ha').
    pose proof (sorted_floor_bounds s h b Hs Hb').
    pose proof (pathTime_floor_spread s h Hs). lia.
Qed.

(** X21. The total travel time of a set of rooms is at least 2 minutes
    for every floor between the lowest and the highest room of the set. *)
Theorem total_travel_time_floor_spread (l : list Room) (a b : Room) :
  In a l -> In b l ->
  2 * (floor b - floor a) <= calculateTotalTravelTime l.
Proof. apply floor_spread_bound. Qed.

Lemma total_travel_time_floor_spread_witness :
  2 * (floor (mkRoom 305 3 5 AVAILABLE) - floor (mkRoom 110 1 10 AVAILABLE))
  <= calculateTotalTravelTime
       [mkRoom 305 3 5 AVAILABLE; mkRoom 110 1 10 AVAILABLE;
        mkRoom 201 2 1 AVAILABLE].
Proof.
  apply (total_travel_time_floor_spread
           [mkRoom 305 3 5 AVAILABLE; mkRoom 110 1 10 AVAILABLE;
            mkRoom 201 2 1 AVAILABLE]
           (mkRoom 110 1 10 AVAILABLE) (mkRoom 305 3 5 AVAILABLE)).
  - right. left. reflexivity.
  - left. reflexivity.
Defined.

(** X22. On the building's inventory a booking whose rooms all lie on one
    floor has a travel time of at most 9 minutes. *)
Theorem same_floor_booking_at_most_nine (inv : list Room) (numRooms fl : Z)
        (result : BookingResult) :
  is_inventory inv ->
  findOptimalRooms inv numRooms = Some result ->
  Forall (fun x => floor x = fl) (rooms result) ->
  exists t, totalTravelTime result = Finite t /\ 0 <= t <= 9.
Proof.
  intros Hinv Hres Hfl.
  destruct (findOptimalRooms_postcondition _ _ _ Hres) as [Hfail Hsucc].
  destruct (success result).
  - destruct (Hsucc eq_refl) as (Ht & _).
    exists (calculateTotalTravelTime (rooms result)). split; [exact Ht |].
    split; [apply calculateTotalTravelTime_nonneg |].
    destruct (rooms result) as [| x xs] eqn:Hrooms; [vm_compute; discriminate |].
    destruct (same_floor_span (x :: xs) fl) as (lo & hi & Hlo & Hhi & _ & ->);
      [discriminate | exact Hfl |].
    rewrite <- Hrooms in Hlo, Hhi.
    pose proof (inventory_wellPlaced inv Hinv) as Hwp.
    rewrite Forall_forall in Hwp.
    pose proof (wellPlaced_position_range lo
                  (Hwp lo (proj1 (result_rooms_available _ _ _ lo Hres Hlo)))).
    pose proof (wellPlaced_position_range hi
                  (Hwp hi (proj1 (result_rooms_available _ _ _ hi Hres Hhi)))).
    lia.
  - destruct (Hfail eq_refl) as (_ & Ht). exists 0. split; [exact Ht | lia].
Qed.

Lemma same_floor_booking_at_most_nine_witness :
  exists t,
    totalTravelTime
      (mkResult (firstn 5 initializeRooms) (Finite 4) true
         "Booked 5 rooms on Floor 1") = Finite t /\ 0 <= t <= 9.
Proof.
  apply (same_floor_booking_at_most_nine initializeRooms 5 1).
  - reflexivity.
  - vm_compute. reflexivity.
  - repeat constructor.
Defined.

(** X23. The alert prints the travel time line only for a booking of at
    least two rooms. *)
Theorem travel_time_line_needs_two_rooms (inv : list Room) (numRooms : Z)
        (result : BookingResult) :
  findOptimalRooms inv numRooms = Some result ->
  showsTravelTime result = true ->
  2 <= len (rooms result).
Proof.
  intros Hres Hshow. unfold showsTravelTime in Hshow.
  apply andb_true_iff in Hshow as [Hs Ht].
  destruct (findOptimalRooms_postcondition _ _ _ Hres) as [_ Hsucc].
  destruct (Hsucc Hs) as (Htime & _). rewrite Htime in Ht.
  apply Z.ltb_lt in Ht.
  destruct (Z.le_gt_cases (len (rooms result)) 1) as [Hshort | Hlong]; [| lia].
  rewrite (calculateTotalTravelTime_short _ Hshort) in Ht. lia.
Qed.

Lemma travel_time_line_needs_two_rooms_witness :
  2 <= len [mkRoom 101 1 1 AVAILABLE; mkRoom 102 1 2 AVAILABLE].
Proof.
  apply (travel_time_line_needs_two_rooms initializeRooms 2
           (mkResult [mkRoom 101 1 1 AVAILABLE; mkRoom 102 1 2 AVAILABLE]
              (Finite 1) true "Booked 2 rooms on Floor 1"));
    vm_compute; reflexivity.
Defined.

(** ** The layout *)

Lemma flat_map_filter_nil {A B : Type} (floors : list B) :
  flat_map (fun _ : B => @nil A) floors = [].
Proof. induction floors; simpl; auto. Qed.

(** Splitting a list by a key over a duplicate-free list of keys that
    covers it rearranges the list. *)
Lemma partition_by_floor (floors : list Z) (rs : list Room) :
  NoDup floors ->
  (forall room, In room rs -> In (floor room) floors) ->
  Permutation
    (flat_map (fun fl => filter (fun room => floor room =? fl) rs) floors) rs.
Proof.
  intros Hnd. induction rs as [| r rs IH]; intros Hcover.
  - cbn [filter]. rewrite flat_map_filter_nil. constructor.
  - assert (Hin : In (floor r) floors) by (apply Hcover; now left).
    apply in_split in Hin as (f1 & f2 & Hsplit).
    assert (IH' : Permutation
                    (flat_map (fun fl => filter (fun room => floor room =? fl) rs)
                       floors) rs)
      by (apply IH; intros room Hroom; apply Hcover; now right).
    rewrite Hsplit in Hnd, IH' |- *.
    apply NoDup_remove_2 in Hnd.
    rewrite flat_map_app in IH' |- *. cbn [flat_map] in IH' |- *.
    assert (Hother : forall fs,
              ~ In (floor r) fs ->
              flat_map (fun fl => filter (fun room => floor room =? fl) (r :: rs)) fs
              = flat_map (fun fl => filter (fun room => floor room =? fl) rs) fs).
    { intros fs Hnot. induction fs as [| f fs IHfs]; [reflexivity |].
      cbn [flat_map].
      rewrite IHfs by (intros Hf; apply Hnot; now right).
      f_equal. cbn [filter].
      destruct (Z.eqb_spec (floor r) f) as [Heq | _];
        [exfalso; apply Hnot; now left | reflexivity]. }
    rewrite (Hother f1), (Hother f2)
      by (intros Hf; apply Hnd, in_or_app; auto).
    cbn [filter]. rewrite Z.eqb_refl.
    apply Permutation_sym. cbn [app].
    apply Permutation_cons_app, Permutation_sym, IH'.
Qed.

Lemma displayFloors_eq : displayFloors = [10; 9; 8; 7; 6; 5; 4; 3; 2; 1].
Proof. reflexivity. Qed.

Lemma Sorted_lt_NoDup_rev : NoDup [10; 9; 8; 7; 6; 5; 4; 3; 2; 1].
Proof.
  apply (NoDup_rev (l := [1; 2; 3; 4; 5; 6; 7; 8; 9; 10])), Sorted_lt_NoDup.
  repeat constructor.
Qed.

(** X24. The layout card shows the building completely and once: its
    rows are the floors 10 down to 1, each row holds rooms of its floor
    only, in ascending position, and on the building's inventory the
    badges of all rows together are the badges of all rooms, each once;
    the colour of a badge tells the status, since the three statuses have
    three different colours. *)
Theorem layout_shows_every_room_once (inv : list Room) :
  is_inventory inv ->
  map fst (hotelLayout inv) = [10; 9; 8; 7; 6; 5; 4; 3; 2; 1] /\
  (forall fl, Forall (fun room => floor room = fl) (floorRow inv fl) /\
              StronglySorted positionLe (floorRow inv fl)) /\
  Permutation (flat_map snd (hotelLayout inv)) (map badge inv) /\
  (forall st st', getRoomStatusColor st = getRoomStatusColor st' -> st = st').
Proof.
  intros Hinv. unfold hotelLayout. split; [| split; [| split]];
    [| | | intros [] []; simpl; intros H; (reflexivity || discriminate H)].
  - rewrite map_map. cbn [fst]. rewrite map_id. apply displayFloors_eq.
  - intros fl. split; [| apply sort_byPosition_sorted].
    apply Forall_forall. intros room Hin. unfold floorRow in Hin.
    apply sort_In, filter_In in Hin as [_ Hf]. now apply Z.eqb_eq.
  - rewrite flat_map_concat_map, map_map. cbn [snd].
    rewrite <- flat_map_concat_map.
    eapply perm_trans with
      (map badge
         (flat_map (fun fl => filter (fun room => floor room =? fl) inv)
            displayFloors)).
    + rewrite displayFloors_eq. cbn [flat_map]. rewrite !map_app.
      repeat apply Permutation_app;
        try (apply Permutation_map, sort_perm).
      apply Permutation_refl.
    + apply Permutation_map, partition_by_floor.
      * rewrite displayFloors_eq.
        apply Sorted_lt_NoDup_rev.
      * intros room Hroom. rewrite displayFloors_eq.
        pose proof (inventory_floor_range inv room Hinv Hroom) as Hf.
        unfold FLOORS in Hf. simpl.
        assert (Hc : floor room = 10 \/ floor room = 9 \/ floor room = 8 \/
                     floor room = 7 \/ floor room = 6 \/ floor room = 5 \/
                     floor room = 4 \/ floor room = 3 \/ floor room = 2 \/
                     floor room = 1) by lia.
        intuition.
Qed.

Lemma layout_shows_every_room_once_witness :
  let inv := inventoryWith (fun n => if Z.even n then OCCUPIED else AVAILABLE) in
  map fst (hotelLayout inv) = [10; 9; 8; 7; 6; 5; 4; 3; 2; 1] /\
  (forall fl, Forall (fun room => floor room = fl) (floorRow inv fl) /\
              StronglySorted positionLe (floorRow inv fl)) /\
  Permutation (flat_map snd (hotelLayout inv)) (map badge inv) /\
  (forall st st', getRoomStatusColor st = getRoomStatusColor st' -> st = st').
Proof.
  intros inv. apply (layout_shows_every_room_once inv).
  apply inventoryWith_is_inventory.
Defined.

(** ** Bookings across floors *)

Lemma forallb_false_exists {A : Type} (f : A -> bool) (l : list A) :
  forallb f l = false -> exists x, In x l /\ f x = false.
Proof.
  induction l as [| x l IH]; simpl; [discriminate |].
  destruct (f x) eqn:Hx; simpl.
  - intros H. destruct (IH H) as (y & Hy & Hf). exists y. auto.
  - intros _. exists x. auto.
Qed.

(** The rooms of a result that lie on one floor are no more than the
    rooms available on that floor. *)
Lemma result_rooms_per_floor (inv : list Room) (numRooms fl : Z)
      (result : BookingResult) :
  findOptimalRooms inv numRooms = Some result ->
  len (filter (fun room => floor room =? fl) (rooms result))
  <= len (getAvailableRoomsOnFloor inv fl).
Proof.
  intros Hres.
  destruct (findOptimalRooms_selects_available inv numRooms result Hres)
    as [rest Hperm].
  rewrite getAvailableRoomsOnFloor_available, sort_len.
  rewrite <- (Permutation_filter_len _ _ _ Hperm), filter_app.
  unfold len. rewrite length_app. lia.
Qed.

(** X25. On the building's inventory, when no floor has enough available
    rooms for a request of 1 to 5 rooms that can be met, the booking
    spreads over at least two floors and its travel time is at least 2
    minutes. *)
Theorem cross_floor_booking_at_least_two (inv : list Room) (numRooms : Z) :
  is_inventory inv ->
  1 <= numRooms <= MAX_ROOMS_PER_BOOKING ->
  numRooms <= len (availableRooms inv) ->
  (forall fl, 1 <= fl <= FLOORS ->
              len (getAvailableRoomsOnFloor inv fl) < numRooms) ->
  exists result a b t,
    findOptimalRooms inv numRooms = Some result /\
    success result = true /\
    In a (rooms result) /\ In b (rooms result) /\ floor a <> floor b /\
    totalTravelTime result = Finite t /\ 2 <= t.
Proof.
  intros Hinv [H1 Hcap] Havail Hnone.
  destruct (findOptimalRooms_total inv numRooms) as [result Hres].
  assert (Hsucc : success result = true).
  { destruct (findOptimalRooms_success_iff_aux inv numRooms result Hres) as [H _].
    apply H. split; assumption. }
  destruct (findOptimalRooms_postcondition _ _ _ Hres) as [_ Hpost].
  destruct (Hpost Hsucc) as (Ht & Hlen & _).
  specialize (Hlen ltac:(lia)).
  destruct (rooms result) as [| a xs] eqn:Hrooms;
    [rewrite len_nil in Hlen; lia |].
  assert (Ha : In a (rooms result)) by (rewrite Hrooms; now left).
  destruct (result_rooms_available _ _ _ a Hres Ha) as [Hain _].
  pose proof (inventory_floor_range inv a Hinv Hain) as Hfa.
  destruct (forallb (fun room => floor room =? floor a) (rooms result)) eqn:Hall.
  - exfalso.
    pose proof (result_rooms_per_floor inv numRooms (floor a) result Hres) as Hle.
    rewrite (forallb_filter_id _ _ Hall) in Hle.
    specialize (Hnone (floor a) Hfa). rewrite Hrooms in Hle. lia.
  - apply forallb_false_exists in Hall as (b & Hb & Hfb).
    apply Z.eqb_neq in Hfb.
    exists result, a, b, (calculateTotalTravelTime (rooms result)).
    rewrite Hrooms in *.
    repeat split; try assumption; try congruence.
    pose proof (floor_spread_bound (a :: xs) a b Ha Hb).
    pose proof (floor_spread_bound (a :: xs) b a Hb Ha). lia.
Qed.

Lemma cross_floor_booking_at_least_two_witness :
  let inv := inventoryWith
               (fun n => if (n =? 110) || (n =? 201) || (n =? 305)
                         then AVAILABLE else OCCUPIED) in
  exists result a b t,
    findOptimalRooms inv 2 = Some result /\
    success result = true /\
    In a (rooms result) /\ In b (rooms result) /\ floor a <> floor b /\
    totalTravelTime result = Finite t /\ 2 <= t.
Proof.
  intros inv. apply (cross_floor_booking_at_least_two inv 2).
  - apply inventoryWith_is_inventory.
  - vm_compute. split; congruence.
  - vm_compute. congruence.
  - apply no_floor_suffices_check. vm_compute. reflexivity.
Defined.
